(** * rustBot: presence, idle detection and persistence of [main.py]

    A shallow embedding of the tracking core of [main.py] (the functions
    [format_minutes], [handle_idle], [update_presence], [rust_polling_loop],
    [save_player_data_loop] and [load_player_data]) and the properties of
    it that the specification states.

    Modelling conventions.
    - The module-level dictionaries are the fields of one [state] record,
      each a [gmap] keyed by the Steam id.
    - A function that mutates the globals, schedules a Discord message,
      sleeps or raises is a computation in the monad [M]: it takes the
      state and returns the final state, the effects performed in order
      and either a value or the exception that escaped.
    - [time.time()] is read once at the top of [handle_idle] and of
      [update_presence]; the value read is the parameter [now].
    - Python floats (clock readings, player coordinates) are modelled by
      rationals; rounding error of float arithmetic, NaN and infinities
      are not represented.
    - [print] output is not modelled. *)

From Stdlib Require Import ZArith QArith Qround Lqa Ascii String.
From Stdlib Require Import DecimalString DecimalPos DecimalZ.
From stdpp Require Import gmap strings list sorting.

Local Open Scope string_scope.
Local Open Scope Z_scope.

Set Warnings "-register-all".

(** ** Python values *)

(** The values [json.load] can return and [json.dump] can write, except
    floats.  A [VDict] lists the items of a [dict] in insertion order;
    its keys are pairwise distinct in every dictionary Python builds. *)
Inductive value : Type :=
| VNone
| VBool (b : bool)
| VInt (z : Z)
| VStr (s : string)
| VList (l : list value)
| VDict (d : list (string * value)).

Inductive exn : Type :=
| FileNotFoundError
| JSONDecodeError
| AttributeError
| ValueError
| TypeError
| KeyError (key : string)
| OtherError (what : string).

Module Dict.

(** [d[k]] on the items of a dict: the item stored under [k], if any. *)
Fixpoint get (k : string) (d : list (string * value)) : option value :=
  match d with
  | [] => None
  | (k', v) :: r => if String.eqb k k' then Some v else get k r
  end.

(** [d[k] = v]: replaces the item in place, or appends a new one. *)
Fixpoint set (k : string) (v : value) (d : list (string * value))
  : list (string * value) :=
  match d with
  | [] => [(k, v)]
  | (k', v') :: r =>
      if String.eqb k k' then (k', v) :: r else (k', v') :: set k v r
  end.

End Dict.

(** [obj[k]] for an arbitrary value: only a dict can be indexed by a
    string. *)
Definition getitem (obj : value) (k : string) : exn + value :=
  match obj with
  | VDict d =>
      match Dict.get k d with
      | Some v => inr v
      | None => inl (KeyError k)
      end
  | _ => inl TypeError
  end.

(** [obj[k] = v] for an arbitrary value. *)
Definition setitem (obj : value) (k : string) (v : value) : exn + value :=
  match obj with
  | VDict d => inr (VDict (Dict.set k v d))
  | _ => inl TypeError
  end.

(** [v + n] for an integer [n]: defined on integers and booleans. *)
Definition add_int (v : value) (n : Z) : exn + value :=
  match v with
  | VInt z => inr (VInt (z + n))
  | VBool b => inr (VInt (Z.b2z b + n))
  | _ => inl TypeError
  end.

(** ** Numbers and text *)

(** [str(z)] for an integer. *)
Definition str (z : Z) : string := NilZero.string_of_int (Z.to_int z).

Definition is_space (c : ascii) : bool :=
  let n := N_of_ascii c in
  ((9 <=? n) && (n <=? 13) || (28 <=? n) && (n <=? 32))%N.

Definition is_digit (c : ascii) : bool :=
  let n := N_of_ascii c in ((48 <=? n) && (n <=? 57))%N.

Fixpoint lstrip (s : string) : string :=
  match s with
  | String c r => if is_space c then lstrip r else s
  | EmptyString => EmptyString
  end.

Fixpoint rstrip (s : string) : string :=
  match s with
  | String c r =>
      match rstrip r with
      | EmptyString => if is_space c then EmptyString else String c EmptyString
      | r' => String c r'
      end
  | EmptyString => EmptyString
  end.

(** The digits of an integer literal with its underscores removed:
    an underscore is accepted only between two digits. *)
Fixpoint digits (after_digit : bool) (s : string) : option string :=
  match s with
  | EmptyString => if after_digit then Some EmptyString else None
  | String c r =>
      if Ascii.eqb c "_" then
        if after_digit then digits false r else None
      else if is_digit c then String c <$> digits true r
      else None
  end.

Definition unsigned (s : string) : option Z :=
  d ← digits false s; Z.of_uint <$> NilEmpty.uint_of_string d.

(** [int(s)] for a string of ASCII characters: surrounding whitespace,
    an optional sign, decimal digits with single underscores between
    them.  [None] stands for [ValueError]. *)
Definition int_str (s : string) : option Z :=
  match rstrip (lstrip s) with
  | String "-" r => Z.opp <$> unsigned r
  | String "+" r => unsigned r
  | s' => unsigned s'
  end.

(** [int(q)] for a float: truncation towards zero. *)
Definition int_float (q : Q) : Z := Z.quot (Qnum q) (Z.pos (Qden q)).

(** [round(q)] for a float: the nearest integer, ties to the even one. *)
Definition round (q : Q) : Z :=
  let f := Qfloor q in
  match Qcompare (q - inject_Z f) (1 # 2) with
  | Lt => f
  | Gt => f + 1
  | Eq => if Z.even f then f else f + 1
  end.

Definition format_minutes (seconds : Z) : string :=
  let minutes := seconds / 60 in
  if 60 <=? minutes
  then str (minutes / 60) ++ "h " ++ str (minutes mod 60) ++ "m"
  else str minutes ++ "m".

(** ** The state of the process *)

(** A team member as delivered by the Rust+ socket. *)
Record RustTeamMember : Type := Member {
  steam_id : Z;
  name : string;
  x : Q;
  y : Q;
  is_online : bool
}.

(** What [SAVE_FILE] holds, as far as [json.load] can tell: text that is
    not JSON, or the document it decodes to. *)
Inductive content : Type :=
| NotJSON
| JSON (doc : value).

(** The module-level dictionaries and the file [player_stats.json]
    ([None]: the file does not exist). *)
Record state : Type := State {
  last_positions : gmap Z (Z * Z);
  idle_timers : gmap Z Z;
  idle_notify_intervals : gmap Z Z;
  player_online : gmap Z bool;
  player_seen : gmap Z value;
  movement_trail : gmap Z (list (Q * (Z * Z)));
  last_update : gmap Z Q;
  save_file : option content
}.

Definition set_last_positions (f : gmap Z (Z * Z) → gmap Z (Z * Z)) (s : state) :=
  State (f (last_positions s)) (idle_timers s) (idle_notify_intervals s)
    (player_online s) (player_seen s) (movement_trail s) (last_update s)
    (save_file s).

Definition set_idle_timers (f : gmap Z Z → gmap Z Z) (s : state) :=
  State (last_positions s) (f (idle_timers s)) (idle_notify_intervals s)
    (player_online s) (player_seen s) (movement_trail s) (last_update s)
    (save_file s).

Definition set_idle_notify_intervals (f : gmap Z Z → gmap Z Z) (s : state) :=
  State (last_positions s) (idle_timers s) (f (idle_notify_intervals s))
    (player_online s) (player_seen s) (movement_trail s) (last_update s)
    (save_file s).

Definition set_player_online (f : gmap Z bool → gmap Z bool) (s : state) :=
  State (last_positions s) (idle_timers s) (idle_notify_intervals s)
    (f (player_online s)) (player_seen s) (movement_trail s) (last_update s)
    (save_file s).

Definition set_player_seen (f : gmap Z value → gmap Z value) (s : state) :=
  State (last_positions s) (idle_timers s) (idle_notify_intervals s)
    (player_online s) (f (player_seen s)) (movement_trail s) (last_update s)
    (save_file s).

Definition set_movement_trail
    (f : gmap Z (list (Q * (Z * Z))) → gmap Z (list (Q * (Z * Z)))) (s : state) :=
  State (last_positions s) (idle_timers s) (idle_notify_intervals s)
    (player_online s) (player_seen s) (f (movement_trail s)) (last_update s)
    (save_file s).

Definition set_last_update (f : gmap Z Q → gmap Z Q) (s : state) :=
  State (last_positions s) (idle_timers s) (idle_notify_intervals s)
    (player_online s) (player_seen s) (movement_trail s) (f (last_update s))
    (save_file s).

Definition set_save_file (f : option content → option content) (s : state) :=
  State (last_positions s) (idle_timers s) (idle_notify_intervals s)
    (player_online s) (player_seen s) (movement_trail s) (last_update s)
    (f (save_file s)).

(** The state when the module has just been imported. *)
Definition initial_state (file : option content) : state :=
  State ∅ ∅ ∅ ∅ ∅ ∅ ∅ file.

(** ** Effects and the monad of the handlers *)

Inductive effect : Type :=
| SendToDiscord (message : string)
    (* asyncio.create_task(send_to_discord(message)) *)
| Sleep (seconds : Z).
    (* await asyncio.sleep(seconds) *)

Record outcome (A : Type) : Type := Outcome {
  result : exn + A;
  final : state;
  effects : list effect
}.
Arguments Outcome {A} _ _ _.
Arguments result {A} _.
Arguments final {A} _.
Arguments effects {A} _.

Definition M (A : Type) : Type := state → outcome A.

#[global] Instance M_ret : MRet M := λ A a s, Outcome (inr a) s [].

#[global] Instance M_bind : MBind M := λ A B k m s,
  match m s with
  | Outcome (inl e) s' out => Outcome (inl e) s' out
  | Outcome (inr a) s' out =>
      match k a s' with
      | Outcome r s'' out' => Outcome r s'' (out ++ out')
      end
  end.

Definition raise {A} (e : exn) : M A := λ s, Outcome (inl e) s [].
Definition gets {A} (f : state → A) : M A := λ s, Outcome (inr (f s)) s [].
Definition modify (f : state → state) : M unit := λ s, Outcome (inr tt) (f s) [].
Definition emit (e : effect) : M unit := λ s, Outcome (inr tt) s [e].

Definition lift {A} (r : exn + A) : M A :=
  match r with
  | inl e => raise e
  | inr a => mret a
  end.

(** [try: body except Exception as e: handler e]. *)
Definition try_except {A} (body : M A) (handler : exn → M A) : M A := λ s,
  match body s with
  | Outcome (inl e) s' out =>
      match handler e s' with
      | Outcome r s'' out' => Outcome r s'' (out ++ out')
      end
  | o => o
  end.

(** [for a in l: body a]. *)
Fixpoint for_each {A} (l : list A) (body : A → M unit) : M unit :=
  match l with
  | [] => mret tt
  | a :: r => body a;; for_each r body
  end.

(** [if k not in d: body]. *)
Definition if_not_in {V} (d : state → gmap Z V) (k : Z) (body : M unit) : M unit :=
  m ← gets d;
  match m !! k with
  | Some _ => mret tt
  | None => body
  end.

(** [d[k]] on a module-level dictionary. *)
Definition subscript {V} (d : state → gmap Z V) (k : Z) : M V :=
  m ← gets d;
  match m !! k with
  | Some v => mret v
  | None => raise (KeyError (str k))
  end.

(** ** Idle detection *)

Definition idle_message (who : string) (duration : string) : string :=
  "🛑 **" ++ who ++ "** has been idle for " ++ duration ++ ".".

Definition active_message (who : string) (duration : string) : string :=
  "✅ **" ++ who ++ "** is no longer AFK. (Idle for " ++ duration ++ ")".

(** [(round(player.x), round(player.y))]. *)
Definition position (player : RustTeamMember) : Z * Z :=
  (round (x player), round (y player)).

Definition handle_idle (player : RustTeamMember) (now : Q) : M unit :=
  let sid := steam_id player in
  let pos := position player in
  if_not_in last_positions sid (modify (set_last_positions <[sid := pos]>));;
  if_not_in idle_timers sid (modify (set_idle_timers <[sid := 0]>));;
  if_not_in idle_notify_intervals sid
    (modify (set_idle_notify_intervals <[sid := 5]>));;
  if_not_in movement_trail sid (modify (set_movement_trail <[sid := []]>));;
  trail ← subscript movement_trail sid;
  modify (set_movement_trail <[sid := (trail ++ [(now, pos)])%list]>);;
  last ← subscript last_positions sid;
  if decide (pos = last) then
    t ← subscript idle_timers sid;
    modify (set_idle_timers <[sid := t + 1]>);;
    notify_at ← subscript idle_notify_intervals sid;
    t' ← subscript idle_timers sid;
    if decide (t' = notify_at) then
      emit (SendToDiscord
              (idle_message (name player) (format_minutes (notify_at * 60))));;
      modify (set_idle_notify_intervals <[sid := Z.min (notify_at * 2) 60]>)
    else mret tt
  else
    t ← subscript idle_timers sid;
    (if decide (5 ≤ t) then
       emit (SendToDiscord (active_message (name player) (format_minutes t)))
     else mret tt);;
    modify (set_idle_timers <[sid := 0]>);;
    modify (set_idle_notify_intervals <[sid := 5]>);;
    modify (set_last_positions <[sid := pos]>).

(** ** Presence tracking *)

Definition login_message (who : string) : string :=
  "✅ **" ++ who ++ "** logged in.".

Definition logout_message (who : string) : string :=
  "❌ **" ++ who ++ "** logged out.".

(** The dictionary stored for a player seen for the first time. *)
Definition new_stats (who : string) (now : Q) : value :=
  VDict [("name", VStr who);
         ("first", VInt (int_float now));
         ("last", VInt (int_float now));
         ("total", VInt 0);
         ("idle", VInt 0)].

(** [player_seen[sid][key] += delta]. *)
Definition add_to_stat (sid : Z) (key : string) (delta : Z) : M unit :=
  entry ← subscript player_seen sid;
  old ← lift (getitem entry key);
  new ← lift (add_int old delta);
  entry' ← lift (setitem entry key new);
  modify (set_player_seen <[sid := entry']>).

(** [player_seen[sid][key] = v]. *)
Definition set_stat (sid : Z) (key : string) (v : value) : M unit :=
  entry ← subscript player_seen sid;
  entry' ← lift (setitem entry key v);
  modify (set_player_seen <[sid := entry']>).

(** [player_online.get(sid)] used as a condition. *)
Definition was_online (s : state) (sid : Z) : bool :=
  default false (player_online s !! sid).

(** [idle_timers.get(sid, 0)]. *)
Definition counter (sid : Z) (s : state) : Z :=
  default 0 (idle_timers s !! sid).

Definition update_presence (player : RustTeamMember) (now : Q) : M unit :=
  let sid := steam_id player in
  if_not_in player_seen sid
    (modify (set_player_seen <[sid := new_stats (name player) now]>));;
  if_not_in last_update sid (modify (set_last_update <[sid := now]>));;
  before ← subscript last_update sid;
  let delta := int_float (now - before) in
  modify (set_last_update <[sid := now]>);;
  prev ← gets (λ s, was_online s sid);
  (if negb prev && is_online player then
     emit (SendToDiscord (login_message (name player)))
   else if prev && negb (is_online player) then
     emit (SendToDiscord (logout_message (name player)))
   else mret tt);;
  (if is_online player then
     add_to_stat sid "total" delta;;
     ticks ← gets (counter sid);
     (if decide (1 ≤ ticks) then
        add_to_stat sid "idle" delta
      else mret tt);;
     set_stat sid "last" (VInt (int_float now))
   else mret tt);;
  modify (set_player_online <[sid := is_online player]>).

(** ** Polling *)

(** A roster member together with the two clock readings taken while it
    is processed: by [update_presence] and by [handle_idle]. *)
Record sample : Type := Sample {
  member : RustTeamMember;
  presence_clock : Q;
  idle_clock : Q
}.

(** The answer of [socket.get_team_info()]: an exception, or the team
    info ([None]) with its members. *)
Inductive fetched : Type :=
| Raises (e : exn)
| Returns (team_info : option (list sample)).

Inductive control : Type := Continue | Fallthrough.

Definition process (p : sample) : M unit :=
  update_presence (member p) (presence_clock p);;
  if is_online (member p) then handle_idle (member p) (idle_clock p)
  else mret tt.

(** One turn of the [while True] of [rust_polling_loop], for a given
    answer of the socket. *)
Definition polling_iteration (answer : fetched) : M unit :=
  c ← try_except
        (match answer with
         | Raises e => raise e
         | Returns None | Returns (Some []) => emit (Sleep 10);; mret Continue
         | Returns (Some members) => for_each members process;; mret Fallthrough
         end)
        (λ _, mret Fallthrough);
  match c with
  | Continue => mret tt
  | Fallthrough => emit (Sleep 60)
  end.

(** The loop, as long as the answers last. *)
Definition rust_polling_loop (answers : list fetched) : M unit :=
  for_each answers polling_iteration.

(** ** Persistence *)

(** [{str(k): v for k, v in player_seen.items()}]. *)
Definition str_keys (seen : gmap Z value) : list (string * value) :=
  (λ kv, (str kv.1, kv.2)) <$> map_to_list seen.

(** One turn of the [while True] of [save_player_data_loop]. *)
Definition save_player_data : M unit :=
  try_except
    (seen ← gets player_seen;
     modify (set_save_file (λ _, Some (JSON (VDict (str_keys seen))))))
    (λ _, mret tt);;
  emit (Sleep 60).

(** [obj.items()]. *)
Definition items (obj : value) : exn + list (string * value) :=
  match obj with
  | VDict d => inr d
  | _ => inl AttributeError
  end.

(** [{int(k): v for k, v in its}], built from left to right. *)
Fixpoint int_keys (its : list (string * value)) (acc : gmap Z value)
  : exn + gmap Z value :=
  match its with
  | [] => inr acc
  | (k, v) :: r =>
      match int_str k with
      | Some n => int_keys r (<[n := v]> acc)
      | None => inl ValueError
      end
  end.

Definition load_player_data : M unit :=
  try_except
    (f ← gets save_file;
     match f with
     | None => raise FileNotFoundError
     | Some NotJSON => raise JSONDecodeError
     | Some (JSON doc) =>
         its ← lift (items doc);
         seen ← lift (int_keys its ∅);
         modify (set_player_seen (λ _, seen))
     end)
    (λ e, match e with
          | FileNotFoundError => modify (set_player_seen (λ _, ∅))
          | _ => raise e
          end).

(** ** Vocabulary of the statements *)

(** The threshold, the trail and the baseline position that [handle_idle]
    works with: the stored ones, or the ones it stores for a player it
    has not met. *)
Definition threshold (sid : Z) (s : state) : Z :=
  default 5 (idle_notify_intervals s !! sid).

Definition trail (sid : Z) (s : state) : list (Q * (Z * Z)) :=
  default [] (movement_trail s !! sid).

Definition baseline (player : RustTeamMember) (s : state) : Z * Z :=
  default (position player) (last_positions s !! steam_id player).

(** [entry.get(key)] for the statistics of a player. *)
Definition field (key : string) (entry : value) : option value :=
  match entry with
  | VDict d => Dict.get key d
  | _ => None
  end.

Definition stat (s : state) (sid : Z) (key : string) : option value :=
  player_seen s !! sid ≫= field key.

(** A well-formed statistics entry. *)
Definition stats (who : string) (first last total idle : Z) : value :=
  VDict [("name", VStr who); ("first", VInt first); ("last", VInt last);
         ("total", VInt total); ("idle", VInt idle)].

(** [entry[key] += delta] on one entry. *)
Definition stat_add (entry : value) (key : string) (delta : Z) : exn + value :=
  match getitem entry key with
  | inl e => inl e
  | inr old =>
      match add_int old delta with
      | inl e => inl e
      | inr new => setitem entry key new
      end
  end.

(** The three updates [update_presence] makes to the entry of an online
    player, with the exception that interrupted them, if any. *)
Definition account (entry : value) (delta : Z) (idle : bool) (now : Q)
  : option exn * value :=
  match stat_add entry "total" delta with
  | inl e => (Some e, entry)
  | inr e1 =>
      match (if idle then stat_add e1 "idle" delta else inr e1) with
      | inl e => (Some e, e1)
      | inr e2 =>
          match setitem e2 "last" (VInt (int_float now)) with
          | inl e => (Some e, e2)
          | inr e3 => (None, e3)
          end
      end
  end.

(** The messages [update_presence] schedules. *)
Definition presence_effects (player : RustTeamMember) (s : state) : list effect :=
  let prev := was_online s (steam_id player) in
  if negb prev && is_online player then
    [SendToDiscord (login_message (name player))]
  else if prev && negb (is_online player) then
    [SendToDiscord (logout_message (name player))]
  else [].

(** Calls of the two handlers, in the order the loop makes them. *)
Inductive call : Type :=
| Presence (player : RustTeamMember) (now : Q)
| Idle (player : RustTeamMember) (now : Q).

Definition clock (c : call) : Q :=
  match c with
  | Presence _ now | Idle _ now => now
  end.

Definition run_call (c : call) : M unit :=
  match c with
  | Presence player now => update_presence player now
  | Idle player now => handle_idle player now
  end.

(** The clock never goes back: every reading is at least the one before,
    the first at least [t]. *)
Fixpoint nondecreasing (t : Q) (cs : list call) : Prop :=
  match cs with
  | [] => True
  | c :: r => (t <= clock c)%Q ∧ nondecreasing (clock c) r
  end.

(** Successive [handle_idle] calls. *)
Definition observe_all (obs : list (RustTeamMember * Q)) : M unit :=
  for_each obs (λ o, handle_idle o.1 o.2).

(** The sequence 5, 10, 20, 40, 60, 60, 60, ... of the specification. *)
Definition thresholds (i : nat) : Z := Z.min (5 * 2 ^ Z.of_nat i) 60.

(** How many idle warnings a player has received whose position has not
    changed for [c] ticks. *)
Definition warned (c : Z) : nat :=
  length (filter (λ t, t ≤ c) [5; 10; 20; 40; 60]).

(** Every stored entry is well formed and has counted no more idle
    seconds than seconds online. *)
Definition stats_ok (s : state) : Prop :=
  ∀ sid entry, player_seen s !! sid = Some entry →
    ∃ who first last total idle,
      entry = stats who first last total idle ∧ 0 ≤ idle ≤ total.

(** No clock reading kept in [last_update] is later than [t]. *)
Definition clock_bound (t : Q) (s : state) : Prop :=
  ∀ sid u, last_update s !! sid = Some u → (u <= t)%Q.

(** An observation of the player [sid] at the rounded position [pos]. *)
Definition still (sid : Z) (pos : Z * Z) (o : RustTeamMember * Q) : Prop :=
  steam_id o.1 = sid ∧ position o.1 = pos.

(** Every stored entry has the shape [update_presence] gives it. *)
Definition shaped (s : state) : Prop :=
  ∀ sid entry, player_seen s !! sid = Some entry →
    ∃ who first last total idle, entry = stats who first last total idle.


(** The samples [handle_idle] is given for [sid] in a sequence of calls. *)
Fixpoint samples (sid : Z) (cs : list call) : list (Q * (Z * Z)) :=
  match cs with
  | [] => []
  | Idle player now :: r =>
      if decide (steam_id player = sid)
      then (now, position player) :: samples sid r
      else samples sid r
  | Presence _ _ :: r => samples sid r
  end.

Definition is_sleep (e : effect) : bool :=
  match e with
  | Sleep _ => true
  | SendToDiscord _ => false
  end.


(** ** The rest of the module *)






(** [sorted(l, key=..., reverse=...)] for the order [le]. Python's sort
    is stable, which fixes its result: an element goes before the first
    one it is not above, after the ones that were ahead of it. *)
Fixpoint insert_sorted {A} (le : A → A → bool) (a : A) (l : list A) : list A :=
  match l with
  | [] => [a]
  | b :: r => if le a b then a :: l else b :: insert_sorted le a r
  end.

Definition sorted {A} (le : A → A → bool) (l : list A) : list A :=
  foldr (insert_sorted le) [] l.

(** [sep.join(l)]. *)
Fixpoint join (sep : string) (l : list string) : string :=
  match l with
  | [] => ""
  | [a] => a
  | a :: r => a ++ sep ++ join sep r
  end.

Definition newline : string := String (ascii_of_nat 10) "".

(** [[data["name"] for data in values]]. *)
Fixpoint names_of (values : list value) : exn + list value :=
  match values with
  | [] => inr []
  | data :: r =>
      match getitem data "name" with
      | inl e => inl e
      | inr n =>
          match names_of r with
          | inl e => inl e
          | inr ns => inr (n :: ns)
          end
      end
  end.

Definition as_str (v : value) : option string :=
  match v with
  | VStr a => Some a
  | _ => None
  end.

(** The reply of the [players] command, for [player_seen.values()] in
    the order of the dict. A name that is not a string makes [sorted] or
    [join] raise [TypeError]. *)
Definition players (values : list value) : exn + string :=
  match names_of values with
  | inl e => inl e
  | inr [] => inr "⚠️ No player data loaded."
  | inr names =>
      match mapM as_str names with
      | Some texts =>
          inr ("🧍 Tracked players:" ++ newline ++
               join ", " (sorted String.leb texts))
      | None => inl TypeError
      end
  end.

Definition as_int (v : value) : option Z :=
  match v with
  | VInt z => Some z
  | VBool b => Some (Z.b2z b)
  | _ => None
  end.

(** [d["total"] - d["idle"]]. *)
Definition active_time (d : value) : exn + Z :=
  match getitem d "total" with
  | inl e => inl e
  | inr total =>
      match getitem d "idle" with
      | inl e => inl e
      | inr idle =>
          match as_int total, as_int idle with
          | Some t, Some i => inr (t - i)
          | _, _ => inl TypeError
          end
      end
  end.

(** The keys [sorted] computes, entry by entry, before it compares. *)
Fixpoint keyed (values : list value) : exn + list (Z * value) :=
  match values with
  | [] => inr []
  | d :: r =>
      match active_time d with
      | inl e => inl e
      | inr k =>
          match keyed r with
          | inl e => inl e
          | inr l => inr ((k, d) :: l)
          end
      end
  end.

(** [sorted(player_seen.values(), key=lambda d: d["total"] - d["idle"],
    reverse=True)[:10]] of [top_active]. *)
Definition top_active_ranking (values : list value) : exn + list value :=
  match keyed values with
  | inl e => inl e
  | inr l => inr (take 10 (snd <$> sorted (λ a b, b.1 <=? a.1) l))
  end.

(** * Properties *)

Arguments round : simpl never.
Arguments int_float : simpl never.
Arguments format_minutes : simpl never.
Arguments idle_message : simpl never.
Arguments active_message : simpl never.
Arguments login_message : simpl never.
Arguments logout_message : simpl never.
Arguments new_stats : simpl never.
Arguments position : simpl never.
Arguments add_to_stat : simpl never.
Arguments set_stat : simpl never.
Arguments stat_add : simpl never.
Arguments setitem : simpl never.
Arguments Z.add : simpl never.
Arguments Z.mul : simpl never.
Arguments Z.min : simpl never.
Arguments Qminus : simpl never.

Ltac run_monad :=
  unfold if_not_in, subscript, lift, gets, modify, emit, raise, try_except;
  unfold mbind, M_bind, mret, M_ret; simpl.

Ltac unfold_setters :=
  unfold set_last_positions, set_idle_timers, set_idle_notify_intervals,
    set_player_online, set_player_seen, set_movement_trail, set_last_update,
    set_save_file; simpl.

Ltac absorb_inserts :=
  repeat match goal with
    | H : ?m !! ?k = Some ?v |- context [<[?k := ?v]> ?m] =>
        rewrite (insert_id m k v H)
    end.

(** ** What one call of [handle_idle] does *)

Lemma handle_idle_unfold player now s :
  handle_idle player now s =
  let sid := steam_id player in
  let pos := position player in
  let t := counter sid s in
  let n := threshold sid s in
  let moved := bool_decide (pos ≠ baseline player s) in
  let warn := bool_decide (t + 1 = n) in
  Outcome (inr tt)
    (State (<[sid := pos]> (last_positions s))
       (<[sid := if moved then 0 else t + 1]> (idle_timers s))
       (<[sid := if moved then 5 else if warn then Z.min (n * 2) 60 else n]>
          (idle_notify_intervals s))
       (player_online s) (player_seen s)
       (<[sid := (trail sid s ++ [(now, pos)])%list]> (movement_trail s))
       (last_update s) (save_file s))
    (if moved then
       if bool_decide (5 ≤ t)
       then [SendToDiscord (active_message (name player) (format_minutes t))]
       else []
     else
       if warn
       then [SendToDiscord (idle_message (name player) (format_minutes (n * 60)))]
       else []).
Proof.
  destruct s as [lp it ini po ps mt lu sf].
  unfold handle_idle, baseline, counter, threshold, trail.
  run_monad.
  destruct (lp !! steam_id player) as [l|] eqn:Hlp;
    destruct (it !! steam_id player) as [t|] eqn:Hit;
    destruct (ini !! steam_id player) as [n|] eqn:Hini;
    destruct (mt !! steam_id player) as [tr|] eqn:Hmt; cbn.
  all: repeat (progress
         (simpl; unfold_setters;
          rewrite ?lookup_insert_eq, ?Hlp, ?Hit, ?Hini, ?Hmt, ?insert_insert_eq;
          try case_decide)).
  all: repeat case_bool_decide.
  all: try (exfalso; congruence).
  all: try (exfalso; lia).
  all: subst; absorb_inserts; reflexivity.
Qed.

Lemma handle_idle_result player now s :
  result (handle_idle player now s) = inr tt.
Proof. by rewrite handle_idle_unfold. Qed.

(** [handle_idle] touches neither the statistics nor the presence state. *)
Lemma handle_idle_frame player now s :
  let s' := final (handle_idle player now s) in
  player_seen s' = player_seen s ∧ last_update s' = last_update s ∧
  player_online s' = player_online s ∧ save_file s' = save_file s.
Proof. by rewrite handle_idle_unfold. Qed.

(** ** What one call of [update_presence] does *)

Lemma add_to_stat_unfold sid key delta s entry :
  player_seen s !! sid = Some entry →
  add_to_stat sid key delta s =
  match stat_add entry key delta with
  | inl e => Outcome (inl e) s []
  | inr entry' => Outcome (inr tt) (set_player_seen <[sid := entry']> s) []
  end.
Proof.
  intros H. unfold add_to_stat, stat_add. run_monad. rewrite H. simpl.
  destruct (getitem entry key) as [e|old]; simpl; [done|].
  destruct (add_int old delta) as [e|new]; simpl; [done|].
  by destruct (setitem entry key new) as [e|entry'].
Qed.

Lemma set_stat_unfold sid key v s entry :
  player_seen s !! sid = Some entry →
  set_stat sid key v s =
  match setitem entry key v with
  | inl e => Outcome (inl e) s []
  | inr entry' => Outcome (inr tt) (set_player_seen <[sid := entry']> s) []
  end.
Proof.
  intros H. unfold set_stat. run_monad. rewrite H. simpl.
  by destruct (setitem entry key v) as [e|entry'].
Qed.

Lemma update_presence_unfold player now s :
  update_presence player now s =
  let sid := steam_id player in
  let entry := default (new_stats (name player) now) (player_seen s !! sid) in
  let delta := int_float (now - default now (last_update s !! sid)) in
  let idle := bool_decide (1 ≤ counter sid s) in
  let acc :=
    if is_online player then account entry delta idle now else (None, entry) in
  Outcome (match acc.1 with Some e => inl e | None => inr tt end)
    (State (last_positions s) (idle_timers s) (idle_notify_intervals s)
       (match acc.1 with
        | Some _ => player_online s
        | None => <[sid := is_online player]> (player_online s)
        end)
       (<[sid := acc.2]> (player_seen s))
       (movement_trail s) (<[sid := now]> (last_update s)) (save_file s))
    (presence_effects player s).
Proof.
  destruct s as [lp it ini po ps mt lu sf], player as [sid nm px py online].
  unfold update_presence, presence_effects, was_online, account, counter.
  cbn [steam_id name is_online].
  unfold if_not_in, subscript, lift, gets, modify, emit, raise;
  unfold mbind, M_bind, mret, M_ret; cbn.
  destruct (ps !! sid) as [entry|] eqn:Hps; cbn;
    (destruct (lu !! sid) as [before|] eqn:Hlu; cbn);
    rewrite ?lookup_insert_eq, ?Hlu; cbn;
    (destruct (po !! sid) as [[|]|] eqn:Hpo; cbn);
    (destruct online; cbn; unfold set_player_seen, set_last_update, set_player_online; cbn;
     rewrite ?insert_insert_eq; try (rewrite (insert_id ps) by done);
     try reflexivity).
  all: match goal with
       | |- context [add_to_stat ?i ?k ?d ?st] =>
           rewrite (add_to_stat_unfold i k d st
                      (default (new_stats nm now) (ps !! i)))
             by (cbn; rewrite ?lookup_insert_eq, ?Hps; done)
       end; rewrite Hps; cbn.
  all: destruct (stat_add _ "total" _) as [e|e1]; cbn;
    [try (rewrite (insert_id ps) by done); done|].
  all: unfold set_player_seen; cbn.
  all: destruct (decide (1 ≤ default 0 (it !! sid))) as [Hidle|Hidle];
    [rewrite (bool_decide_eq_true_2 _ Hidle)
    |rewrite (bool_decide_eq_false_2 _ Hidle)]; cbn.
  all: try (erewrite (add_to_stat_unfold _ "idle")
              by (cbn; rewrite ?lookup_insert_eq; done);
            destruct (stat_add e1 "idle" _) as [e|e2]; cbn;
            [rewrite ?insert_insert_eq; done|]; unfold set_player_seen; cbn).
  all: erewrite set_stat_unfold by (cbn; rewrite ?lookup_insert_eq; done).
  all: match goal with
       | |- context [setitem ?a ?b ?c] => destruct (setitem a b c) as [e|e3]
       end; cbn.
  all: unfold set_player_seen, set_last_update, set_player_online; cbn; rewrite ?insert_insert_eq; done.
Qed.

(** ** The trail *)

(** C8. Every [handle_idle] call appends exactly one entry, the clock
    reading with the rounded position, to the trail of the observed
    player, whether or not the position changed; the entries recorded
    before, and the trails of the other players, stay as they were. *)
Theorem handle_idle_appends_to_trail player now s :
  movement_trail (final (handle_idle player now s)) =
  <[steam_id player :=
      (trail (steam_id player) s ++ [(now, position player)])%list]>
    (movement_trail s).
Proof. by rewrite handle_idle_unfold. Qed.

(** ** The first observation of a player *)

(** C3, as the code has it. On the first [handle_idle] call for a Steam
    id the observed rounded position becomes the baseline, the threshold
    is 5 and nothing is sent; the idle count is 1, not 0: it is
    initialised to 0 and the same call then counts the observation,
    since the position equals the baseline just recorded. *)
Theorem first_observation player now s :
  last_positions s !! steam_id player = None →
  idle_timers s !! steam_id player = None →
  idle_notify_intervals s !! steam_id player = None →
  let o := handle_idle player now s in
  result o = inr tt ∧
  last_positions (final o) !! steam_id player = Some (position player) ∧
  idle_timers (final o) !! steam_id player = Some 1 ∧
  idle_notify_intervals (final o) !! steam_id player = Some 5 ∧
  effects o = [].
Proof.
  intros Hlp Hit Hini. rewrite handle_idle_unfold.
  unfold baseline, counter, threshold. rewrite Hlp, Hit, Hini. simpl.
  rewrite bool_decide_eq_false_2 by (intros H; by apply H).
  rewrite !lookup_insert_eq. done.
Qed.

Lemma first_observation_witness :
  let player := Member 7 "ann" (1 # 2) 3 true in
  let o := handle_idle player 0 (initial_state None) in
  result o = inr tt ∧
  last_positions (final o) !! 7 = Some (0, 3) ∧
  idle_timers (final o) !! 7 = Some 1 ∧
  idle_notify_intervals (final o) !! 7 = Some 5 ∧
  effects o = [].
Proof.
  apply (first_observation (Member 7 "ann" (1 # 2) 3 true) 0 (initial_state None));
    reflexivity.
Defined.

(** The idle count after the first observation is 1, against the 0 of
    the specification. *)
Lemma first_observation_counts_one :
  let o := handle_idle (Member 7 "ann" (1 # 2) 3 true) 0 (initial_state None) in
  idle_timers (final o) !! 7 = Some 1 ∧ idle_timers (final o) !! 7 ≠ Some 0.
Proof. split; [reflexivity | discriminate]. Qed.

(** ** The end of an idle period *)

Lemma format_minutes_below_hour c : 0 ≤ c < 60 → format_minutes c = "0m".
Proof.
  intros Hc. unfold format_minutes. by rewrite (Z.div_small c 60).
Qed.

(** C9. When a player moves after [c] idle ticks, [5 <= c < 60], the
    message sent gives the idle duration as "0m": the tick count goes to
    [format_minutes], which takes it for seconds and divides by 60. *)
Theorem no_longer_idle_reports_0m player now s c b :
  idle_timers s !! steam_id player = Some c →
  5 ≤ c < 60 →
  last_positions s !! steam_id player = Some b →
  position player ≠ b →
  format_minutes c = "0m" ∧
  effects (handle_idle player now s) =
    [SendToDiscord (active_message (name player) "0m")].
Proof.
  intros Hit Hc Hlp Hmoved.
  assert (format_minutes c = "0m") as Hfmt
    by (apply format_minutes_below_hour; lia).
  split; [done|]. rewrite handle_idle_unfold.
  unfold baseline, counter. rewrite Hit, Hlp. simpl.
  rewrite bool_decide_eq_true_2 by done.
  rewrite bool_decide_eq_true_2 by lia.
  by rewrite Hfmt.
Qed.

Lemma no_longer_idle_reports_0m_witness :
  let s := State {[7 := (0, 3)]} {[7 := 12]} {[7 := 20]} ∅ ∅ ∅ ∅ None in
  format_minutes 12 = "0m" ∧
  effects (handle_idle (Member 7 "ann" 5 3 true) 60 s) =
    [SendToDiscord (active_message "ann" "0m")].
Proof.
  apply (no_longer_idle_reports_0m (Member 7 "ann" 5 3 true) 60
           (State {[7 := (0, 3)]} {[7 := 12]} {[7 := 20]} ∅ ∅ ∅ ∅ None)
           12 (0, 3)).
  - reflexivity.
  - lia.
  - reflexivity.
  - discriminate.
Defined.

(** ** Login and logout messages *)

Lemma login_is_not_logout who who' : login_message who ≠ logout_message who'.
Proof.
  intros H. apply (f_equal (String.get 1)) in H. vm_compute in H. discriminate.
Qed.

(** C6. [update_presence] sends exactly one login message if and only
    if the player was not known to be online (flag false or absent) and
    is online now, exactly one logout message if and only if the player
    was online and is not now, and nothing when the flag is unchanged. *)
Theorem presence_notifications player now s :
  let prev := was_online s (steam_id player) in
  let out := effects (update_presence player now s) in
  (out = [SendToDiscord (login_message (name player))] ↔
     prev = false ∧ is_online player = true) ∧
  (out = [SendToDiscord (logout_message (name player))] ↔
     prev = true ∧ is_online player = false) ∧
  (prev = is_online player ↔ out = []).
Proof.
  rewrite update_presence_unfold. simpl. unfold presence_effects.
  pose proof (login_is_not_logout (name player) (name player)) as Hne.
  destruct (was_online s (steam_id player)), (is_online player); simpl;
    repeat split; intros; try done; try congruence;
    repeat match goal with H : _ ∧ _ |- _ => destruct H end; congruence.
Qed.

Lemma presence_notifications_witness :
  let ann := Member 7 "ann" 0 0 true in
  effects (update_presence ann 0 (initial_state None)) =
    [SendToDiscord (login_message "ann")].
Proof.
  apply (presence_notifications (Member 7 "ann" 0 0 true) 0 (initial_state None)).
  split; reflexivity.
Defined.

(** ** The stored name *)

Lemma dict_get_set_ne key key' v d :
  key ≠ key' → Dict.get key (Dict.set key' v d) = Dict.get key d.
Proof.
  intros Hne. induction d as [|[k w] d IH]; simpl.
  - by rewrite (proj2 (String.eqb_neq key key')).
  - destruct (String.eqb_spec key' k) as [->|Hk]; simpl.
    + by rewrite (proj2 (String.eqb_neq key k)).
    + destruct (String.eqb key k); [done | apply IH].
Qed.

Lemma dict_get_set_eq key v d : Dict.get key (Dict.set key v d) = Some v.
Proof.
  induction d as [|[k w] d IH]; simpl.
  - by rewrite String.eqb_refl.
  - destruct (String.eqb_spec key k) as [->|Hk]; simpl.
    + by rewrite String.eqb_refl.
    + by rewrite (proj2 (String.eqb_neq key k)).
Qed.

Lemma field_setitem key key' v entry entry' :
  key ≠ key' → setitem entry key' v = inr entry' →
  field key entry' = field key entry.
Proof.
  intros Hne. destruct entry; unfold setitem; try discriminate.
  intros [= <-]. simpl. by apply dict_get_set_ne.
Qed.

Lemma field_stat_add key key' delta entry entry' :
  key ≠ key' → stat_add entry key' delta = inr entry' →
  field key entry' = field key entry.
Proof.
  intros Hne. unfold stat_add.
  destruct (getitem entry key') as [e|old]; [discriminate|].
  destruct (add_int old delta) as [e|new]; [discriminate|].
  by apply field_setitem.
Qed.

(** The accounting never touches a field other than the three it
    updates, also when it is interrupted. *)
Lemma field_account key entry delta idle now :
  key ≠ "total" → key ≠ "idle" → key ≠ "last" →
  field key (account entry delta idle now).2 = field key entry.
Proof.
  intros Ht Hi Hl. unfold account.
  destruct (stat_add entry "total" delta) as [e|e1] eqn:H1; simpl; [done|].
  rewrite <- (field_stat_add key _ _ _ _ Ht H1).
  assert (∀ e2, (if idle then stat_add e1 "idle" delta else inr e1) = inr e2 →
                field key e2 = field key e1) as H2.
  { intros e2. destruct idle; [by apply field_stat_add | by intros [= <-]]. }
  destruct (if idle then stat_add e1 "idle" delta else inr e1)
    as [e|e2]; simpl; [done|].
  rewrite <- (H2 e2 eq_refl).
  destruct (setitem e2 "last" (VInt (int_float now))) as [e|e3] eqn:H3;
    simpl; [done|].
  apply (field_setitem key "last" _ e2 e3 Hl H3).
Qed.

(** C1, as the code has it. [update_presence] stores the observed name
    only when it creates the entry of a player it has not seen; for a
    player already present it leaves the stored name as it is, whatever
    name the observation carries and whether the player is online or
    not. *)
Theorem update_presence_name player now s :
  stat (final (update_presence player now s)) (steam_id player) "name" =
  match player_seen s !! steam_id player with
  | Some entry => field "name" entry
  | None => Some (VStr (name player))
  end.
Proof.
  rewrite update_presence_unfold. unfold stat. simpl.
  rewrite lookup_insert_eq. simpl.
  assert (∀ entry,
    field "name" (if is_online player
                  then account entry
                         (int_float (now - default now (last_update s !! steam_id player)))
                         (bool_decide (1 ≤ counter (steam_id player) s)) now
                  else (None, entry)).2 = field "name" entry) as H.
  { intros entry. destruct (is_online player); [|done].
    by apply field_account. }
  rewrite H. by destruct (player_seen s !! steam_id player).
Qed.

(** A player first seen as "ann" and seen again as "bob" keeps the name
    "ann". *)
Lemma name_not_overwritten :
  let s1 := final (update_presence (Member 7 "ann" 0 0 true) 0 (initial_state None)) in
  let s2 := final (update_presence (Member 7 "bob" 0 0 true) 60 s1) in
  is_Some (player_seen s1 !! 7) ∧
  stat s2 7 "name" = Some (VStr "ann") ∧
  stat s2 7 "name" ≠ Some (VStr "bob").
Proof. split; [by eexists | split; [reflexivity | discriminate]]. Qed.

(** ** The polling loop *)

(** C5, as the code has it. When the fetch raises, the turn processes
    nothing and sleeps 60 seconds, the sleep that also ends a turn that
    processed a roster; when the fetch returns no team or an empty
    roster, the turn processes nothing and sleeps 10 seconds. *)
Theorem polling_waits s :
  (∀ e, polling_iteration (Raises e) s = Outcome (inr tt) s [Sleep 60]) ∧
  polling_iteration (Returns None) s = Outcome (inr tt) s [Sleep 10] ∧
  polling_iteration (Returns (Some [])) s = Outcome (inr tt) s [Sleep 10] ∧
  (∀ p ps,
     let o := for_each (p :: ps) process s in
     polling_iteration (Returns (Some (p :: ps))) s =
       Outcome (inr tt) (final o) (effects o ++ [Sleep 60])).
Proof.
  repeat split; try reflexivity.
  intros p ps. cbv zeta. unfold polling_iteration.
  set (body := for_each (p :: ps) process). clearbody body. run_monad.
  destruct (body s) as [[e|[]] s' out]; simpl; by rewrite ?app_nil_r.
Qed.

(** An empty roster is followed by a sleep of 10 seconds, not 60. *)
Lemma empty_roster_sleeps_10 :
  effects (polling_iteration (Returns (Some [])) (initial_state None)) = [Sleep 10] ∧
  effects (polling_iteration (Returns None) (initial_state None)) ≠ [Sleep 60].
Proof. split; [reflexivity | discriminate]. Qed.

(** ** Persistence *)

(** *** [int(str(k)) = k] *)

Lemma lstrip_uint d :
  d ≠ Decimal.Nil →
  lstrip (NilEmpty.string_of_uint d) = NilEmpty.string_of_uint d.
Proof. by destruct d. Qed.

Lemma rstrip_uint d :
  rstrip (NilEmpty.string_of_uint d) = NilEmpty.string_of_uint d.
Proof.
  induction d as [|d IH|d IH|d IH|d IH|d IH|d IH|d IH|d IH|d IH|d IH];
    simpl; [done|..]; rewrite IH; by destruct (NilEmpty.string_of_uint d).
Qed.

Lemma digits_uint d :
  digits true (NilEmpty.string_of_uint d) = Some (NilEmpty.string_of_uint d).
Proof.
  induction d as [|d IH|d IH|d IH|d IH|d IH|d IH|d IH|d IH|d IH|d IH];
    simpl; [done|..]; by rewrite IH.
Qed.

Lemma unsigned_uint p :
  unsigned (NilEmpty.string_of_uint (Pos.to_uint p)) = Some (Z.pos p).
Proof.
  unfold unsigned.
  assert (digits false (NilEmpty.string_of_uint (Pos.to_uint p)) =
          Some (NilEmpty.string_of_uint (Pos.to_uint p))) as ->.
  { pose proof (Unsigned.to_uint_nonnil p) as Hnil.
    destruct (Pos.to_uint p) as [|d|d|d|d|d|d|d|d|d|d]; [done|..];
      simpl; by rewrite digits_uint. }
  simpl. rewrite NilEmpty.usu. simpl.
  unfold Z.of_uint. by rewrite Unsigned.of_to.
Qed.

Lemma str_pos p : str (Z.pos p) = NilEmpty.string_of_uint (Pos.to_uint p).
Proof.
  unfold str. simpl. pose proof (Unsigned.to_uint_nonnil p).
  by destruct (Pos.to_uint p).
Qed.

Lemma str_neg p :
  str (Z.neg p) = String "-" (NilEmpty.string_of_uint (Pos.to_uint p)).
Proof.
  unfold str. simpl. pose proof (Unsigned.to_uint_nonnil p).
  by destruct (Pos.to_uint p).
Qed.

Lemma int_str_str k : int_str (str k) = Some k.
Proof.
  destruct k as [|p|p]; [done|..].
  - rewrite str_pos. unfold int_str.
    rewrite lstrip_uint by apply Unsigned.to_uint_nonnil.
    rewrite rstrip_uint. rewrite <- (unsigned_uint p).
    pose proof (Unsigned.to_uint_nonnil p).
    by destruct (Pos.to_uint p).
  - rewrite str_neg. unfold int_str.
    assert (rstrip (lstrip (String "-" (NilEmpty.string_of_uint (Pos.to_uint p)))) =
            String "-" (NilEmpty.string_of_uint (Pos.to_uint p))) as ->.
    { simpl. rewrite rstrip_uint. pose proof (Unsigned.to_uint_nonnil p).
      by destruct (Pos.to_uint p). }
    by rewrite unsigned_uint.
Qed.

(** *** Saving, then loading *)

Lemma int_keys_str_keys (l : list (Z * value)) (acc : gmap Z value) :
  NoDup l.*1 →
  int_keys ((λ kv, (str kv.1, kv.2)) <$> l) acc = inr (list_to_map l ∪ acc).
Proof.
  revert acc. induction l as [|[k v] l IH]; intros acc Hnd; simpl.
  - by rewrite (left_id_L ∅ (∪)).
  - apply NoDup_cons in Hnd as [Hk Hnd].
    rewrite int_str_str, IH by done. f_equal.
    rewrite <- insert_union_l.
    by rewrite insert_union_r by by apply not_elem_of_list_to_map_1.
Qed.

Lemma load_saved (seen : gmap Z value) s :
  save_file s = Some (JSON (VDict (str_keys seen))) →
  load_player_data s = Outcome (inr tt) (set_player_seen (λ _, seen) s) [].
Proof.
  intros Hfile. unfold load_player_data. run_monad. rewrite Hfile. simpl.
  unfold str_keys. rewrite int_keys_str_keys by apply NoDup_fst_map_to_list.
  simpl. by rewrite (right_id_L ∅ (∪)), list_to_map_to_list.
Qed.

(** C7. Saving the statistics and loading them again, in the same
    process or in a fresh one, gives back the same mapping from Steam
    ids to entries: the keys written as strings by the save are read back
    as the same integers, and every entry is the one that was saved. *)
Theorem save_then_load s :
  let saved := final (save_player_data s) in
  let again := load_player_data saved in
  let fresh := load_player_data (initial_state (save_file saved)) in
  result again = inr tt ∧ player_seen (final again) = player_seen s ∧
  result fresh = inr tt ∧ player_seen (final fresh) = player_seen s.
Proof.
  cbv zeta.
  rewrite (load_saved (player_seen s) (final (save_player_data s))) by done.
  by rewrite (load_saved (player_seen s) (initial_state _)).
Qed.

(** *** Loading *)

Lemma int_keys_keeps its : ∀ acc m k,
  int_keys its acc = inr m → is_Some (acc !! k) → is_Some (m !! k).
Proof.
  induction its as [|[k' v] its IH]; simpl; intros acc m k.
  - by intros [= <-].
  - destruct (int_str k') as [n|]; [|done]. intros Hm Hk.
    apply (IH _ _ _ Hm). destruct (decide (n = k)) as [->|Hne].
    + rewrite lookup_insert_eq. by eexists.
    + by rewrite lookup_insert_ne.
Qed.

Lemma int_keys_error its : ∀ acc e, int_keys its acc = inl e → e = ValueError.
Proof.
  induction its as [|[k v] its IH]; simpl; intros acc e; [done|].
  destruct (int_str k) as [n|]; [apply IH | by intros [= <-]].
Qed.

Lemma int_keys_nonempty k v its m : int_keys ((k, v) :: its) ∅ = inr m → m ≠ ∅.
Proof.
  simpl. destruct (int_str k) as [n|]; [|done]. intros Hm ->.
  destruct (int_keys_keeps its _ _ n Hm) as [w Hw].
  - rewrite lookup_insert_eq. by eexists.
  - by rewrite lookup_empty in Hw.
Qed.

(** C10, as the code has it. [load_player_data] ends without error and
    with an empty mapping when the file is absent, and otherwise only
    when the file holds the empty JSON object; when the file is absent
    the mapping is reset to empty; when the file is present and not valid
    JSON the decoder's exception escapes and the state, the mapping
    included, is the one before the call. *)
Theorem load_outcomes s :
  let o := load_player_data s in
  (result o = inr tt ∧ player_seen (final o) = ∅ ↔
     save_file s = None ∨ save_file s = Some (JSON (VDict []))) ∧
  (save_file s = None →
     o = Outcome (inr tt) (set_player_seen (λ _, ∅) s) []) ∧
  (save_file s = Some NotJSON → o = Outcome (inl JSONDecodeError) s []).
Proof.
  unfold load_player_data. run_monad.
  destruct (save_file s) as [[|doc]|] eqn:Hfile; simpl.
  - split; [split; [intros [? ?] | intros [|]]; done | split; done].
  - split; [|split; done].
    destruct doc as [| | | | |[|[k v] its]]; simpl;
      (split; [intros [Hr Hm] | intros [H|H]]); try done.
    + by right.
    + pose proof (int_keys_nonempty k v its) as Hne. simpl in Hne.
      destruct (int_str k) as [n|]; simpl in *; [|done].
      destruct (int_keys its (<[n:=v]> ∅)) as [e|m] eqn:Hk; simpl in *.
      * by rewrite (int_keys_error _ _ _ Hk) in Hr.
      * by destruct (Hne m).
  - split; [split; [by left | done] | split; done].
Qed.

Lemma load_outcomes_witness :
  load_player_data (initial_state (Some NotJSON)) =
  Outcome (inl JSONDecodeError) (initial_state (Some NotJSON)) [].
Proof.
  apply (load_outcomes (initial_state (Some NotJSON))). reflexivity.
Defined.

(** A file that holds [{}], as the first save of a run without players
    writes it, loads as the empty mapping without error. *)
Lemma empty_object_loads_empty :
  let s := initial_state (Some (JSON (VDict []))) in
  result (load_player_data s) = inr tt ∧
  player_seen (final (load_player_data s)) = ∅ ∧
  save_file s ≠ None.
Proof. done. Qed.

(** ** Idle seconds and total seconds *)

Lemma bind_ok {A B} (m : M A) (k : A → M B) s a :
  result (m s) = inr a →
  result ((m ≫= k) s) = result (k a (final (m s))) ∧
  final ((m ≫= k) s) = final (k a (final (m s))) ∧
  effects ((m ≫= k) s) = (effects (m s) ++ effects (k a (final (m s))))%list.
Proof.
  unfold mbind, M_bind. destruct (m s) as [[e|a'] s' out]; simpl; [done|].
  intros [= ->]. by destruct (k a s').
Qed.

Lemma int_float_nonneg (a b : Q) : (a <= b)%Q → 0 ≤ int_float (b - a).
Proof.
  intros Hab. unfold int_float. apply Z.quot_pos; [|lia].
  apply Qle_minus_iff in Hab. unfold Qle in Hab. simpl in Hab.
  unfold Qminus, Qplus, Qopp. simpl. lia.
Qed.

Lemma account_stats who first last total idle delta (counted : bool) now :
  account (stats who first last total idle) delta counted now =
  (None, stats who first (int_float now) (total + delta)
           (if counted then idle + delta else idle)).
Proof. by destruct counted. Qed.

Lemma update_presence_inv player now t s :
  stats_ok s → clock_bound t s → (t <= now)%Q →
  let o := update_presence player now s in
  result o = inr tt ∧ stats_ok (final o) ∧ clock_bound now (final o).
Proof.
  intros Hok Hclock Ht. rewrite update_presence_unfold. cbv zeta.
  set (sid := steam_id player).
  set (delta := int_float (now - default now (last_update s !! sid))).
  assert (0 ≤ delta) as Hdelta.
  { apply int_float_nonneg. destruct (last_update s !! sid) as [u|] eqn:Hu; simpl.
    - apply Qle_trans with t; [by apply (Hclock sid)|done].
    - apply Qle_refl. }
  assert (∃ who first last total idle,
            default (new_stats (name player) now) (player_seen s !! sid) =
              stats who first last total idle ∧ 0 ≤ idle ≤ total)
    as (who & first & last & total & idle & -> & Hle).
  { destruct (player_seen s !! sid) as [entry|] eqn:Hentry; simpl.
    - by apply (Hok sid).
    - exists (name player), (int_float now), (int_float now), 0, 0.
      split; [done|lia]. }
  set (counted := bool_decide (1 ≤ counter sid s)).
  assert (∃ last' total' idle',
            (if is_online player
             then account (stats who first last total idle) delta counted now
             else (None, stats who first last total idle)) =
              (None, stats who first last' total' idle') ∧ 0 ≤ idle' ≤ total')
    as (last' & total' & idle' & -> & Hle').
  { destruct (is_online player).
    - rewrite account_stats. do 3 eexists. split; [done|].
      destruct counted; lia.
    - do 3 eexists. by split. }
  simpl. split; [done|]. split.
  - intros sid' entry. simpl. destruct (decide (sid = sid')) as [<-|Hne].
    + rewrite lookup_insert_eq. intros [= <-]. by do 5 eexists.
    + rewrite lookup_insert_ne by done. apply Hok.
  - intros sid' u. simpl. destruct (decide (sid = sid')) as [<-|Hne].
    + rewrite lookup_insert_eq. intros [= <-]. apply Qle_refl.
    + rewrite lookup_insert_ne by done. intros Hu.
      apply Qle_trans with t; [by apply (Hclock sid')|done].
Qed.

Lemma handle_idle_inv player now t s :
  stats_ok s → clock_bound t s → (t <= now)%Q →
  let o := handle_idle player now s in
  result o = inr tt ∧ stats_ok (final o) ∧ clock_bound now (final o).
Proof.
  intros Hok Hclock Ht. cbv zeta.
  destruct (handle_idle_frame player now s) as (Hseen & Hupdate & _).
  split; [apply handle_idle_result|]. split.
  - unfold stats_ok. rewrite Hseen. apply Hok.
  - unfold clock_bound. rewrite Hupdate. intros sid u Hu.
    apply Qle_trans with t; [by apply (Hclock sid)|done].
Qed.

Lemma run_calls_inv cs : ∀ t s,
  stats_ok s → clock_bound t s → nondecreasing t cs →
  let o := for_each cs run_call s in
  result o = inr tt ∧ stats_ok (final o).
Proof.
  induction cs as [|c cs IH]; intros t s Hok Hclock Hmono; [done|].
  destruct Hmono as [Ht Hmono]. cbv zeta.
  assert (result (run_call c s) = inr tt ∧ stats_ok (final (run_call c s)) ∧
          clock_bound (clock c) (final (run_call c s))) as (Hr & Hok' & Hclock').
  { destruct c as [player now|player now]; simpl in *.
    - by apply (update_presence_inv player now t).
    - by apply (handle_idle_inv player now t). }
  simpl. destruct (bind_ok (run_call c) (λ _, for_each cs run_call) s tt Hr)
    as (-> & -> & _).
  by apply (IH (clock c)).
Qed.

(** C2, as the code has it. Starting with no statistics, after any
    sequence of [update_presence] and [handle_idle] calls whose clock
    readings never decrease, no call has raised and every player in the
    statistics has an integer [total], an integer [idle], and
    [0 <= idle <= total]. *)
Theorem idle_le_total cs t file :
  nondecreasing t cs →
  let o := for_each cs run_call (initial_state file) in
  result o = inr tt ∧
  ∀ sid, is_Some (player_seen (final o) !! sid) →
    ∃ total idle,
      stat (final o) sid "total" = Some (VInt total) ∧
      stat (final o) sid "idle" = Some (VInt idle) ∧
      0 ≤ idle ≤ total.
Proof.
  intros Hmono.
  destruct (run_calls_inv cs t (initial_state file)) as [Hr Hok]; try done.
  split; [done|]. intros sid [entry Hentry].
  destruct (Hok sid entry Hentry) as (who & first & last & total & idle & -> & Hle).
  exists total, idle. unfold stat. rewrite Hentry. done.
Qed.

Lemma idle_le_total_witness :
  let ann := Member 7 "ann" 0 0 true in
  let o := for_each [Presence ann 0; Idle ann 0; Presence ann 60; Idle ann 60]
             run_call (initial_state None) in
  ∃ total idle,
    stat (final o) 7 "total" = Some (VInt total) ∧
    stat (final o) 7 "idle" = Some (VInt idle) ∧
    0 ≤ idle ≤ total.
Proof.
  apply (idle_le_total
           [Presence (Member 7 "ann" 0 0 true) 0; Idle (Member 7 "ann" 0 0 true) 0;
            Presence (Member 7 "ann" 0 0 true) 60; Idle (Member 7 "ann" 0 0 true) 60]
           0 None).
  - simpl. repeat split; by vm_compute.
  - by eexists.
Defined.

(** When the clock is set back between two polls, the total drops
    while the idle seconds stay: here [idle] ends at 60 and [total] at 0. *)
Lemma idle_exceeds_total_when_clock_set_back :
  let ann := Member 7 "ann" 0 0 true in
  let away := Member 7 "ann" 5 0 true in
  let o := for_each
             [Presence ann 0; Idle ann 0; Presence ann 60; Idle away 60;
              Presence away 0]
             run_call (initial_state None) in
  result o = inr tt ∧
  stat (final o) 7 "total" = Some (VInt 0) ∧
  stat (final o) 7 "idle" = Some (VInt 60) ∧
  ¬ (60 ≤ 0).
Proof. repeat split; [by vm_compute.. | lia]. Qed.

(** ** Idle warnings *)

(** One observation at the baseline position. *)
Lemma handle_idle_still player now s :
  position player = baseline player s →
  let sid := steam_id player in
  let o := handle_idle player now s in
  let warn := bool_decide (counter sid s + 1 = threshold sid s) in
  result o = inr tt ∧
  counter sid (final o) = counter sid s + 1 ∧
  threshold sid (final o) =
    (if warn then Z.min (threshold sid s * 2) 60 else threshold sid s) ∧
  last_positions (final o) !! sid = Some (position player) ∧
  effects o =
    (if warn
     then [SendToDiscord
             (idle_message (name player) (format_minutes (threshold sid s * 60)))]
     else []).
Proof.
  intros Hstill. rewrite handle_idle_unfold. cbv zeta.
  rewrite (bool_decide_eq_false_2 (position player ≠ baseline player s))
    by (intros H; by apply H).
  repeat split; try done; unfold counter, threshold; simpl;
    by rewrite lookup_insert_eq.
Qed.

(** One observation away from the baseline position. *)
Lemma handle_idle_moved player now s :
  position player ≠ baseline player s →
  let sid := steam_id player in
  let o := handle_idle player now s in
  counter sid (final o) = 0 ∧ threshold sid (final o) = 5 ∧
  last_positions (final o) !! sid = Some (position player).
Proof.
  intros Hmoved. rewrite handle_idle_unfold. cbv zeta.
  rewrite (bool_decide_eq_true_2 _ Hmoved).
  repeat split; try done; unfold counter, threshold; simpl;
    by rewrite lookup_insert_eq.
Qed.

(** The threshold in force after [c] idle ticks is the next element of
    the sequence, and the tick [c + 1] reaches it exactly when [c + 1] is
    one of 5, 10, 20, 40, 60. *)
Lemma thresholds_step c :
  0 ≤ c →
  let n := thresholds (warned c) in
  (c + 1 = n ↔ c + 1 ∈ [5; 10; 20; 40; 60]) ∧
  thresholds (warned (c + 1)) = (if decide (c + 1 = n) then Z.min (n * 2) 60 else n).
Proof.
  intros Hc. cbv zeta. rewrite !elem_of_cons, elem_of_nil.
  unfold warned. rewrite !filter_cons, !filter_nil.
  assert (thresholds 0 = 5 ∧ thresholds 1 = 10 ∧ thresholds 2 = 20 ∧
          thresholds 3 = 40 ∧ thresholds 4 = 60 ∧ thresholds 5 = 60)
    as (T0 & T1 & T2 & T3 & T4 & T5) by done.
  repeat case_decide; try lia; simpl in *;
    rewrite ?T0, ?T1, ?T2, ?T3, ?T4, ?T5 in *; lia.
Qed.

Lemma observe_all_still sid pos pre : ∀ s,
  Forall (still sid pos) pre →
  default pos (last_positions s !! sid) = pos →
  0 ≤ counter sid s →
  threshold sid s = thresholds (warned (counter sid s)) →
  let o := observe_all pre s in
  result o = inr tt ∧
  counter sid (final o) = counter sid s + Z.of_nat (length pre) ∧
  threshold sid (final o) = thresholds (warned (counter sid (final o))) ∧
  default pos (last_positions (final o) !! sid) = pos.
Proof.
  induction pre as [|[player now] pre IH]; intros s Hpre Hbase Hc Hthr; cbv zeta.
  - simpl. repeat split; try done. lia.
  - apply Forall_cons in Hpre as [[Hsid Hpos] Hpre]. simpl in Hsid, Hpos.
    assert (position player = baseline player s) as Hstill
      by (unfold baseline; by rewrite Hsid, Hpos).
    destruct (handle_idle_still player now s Hstill) as (Hr & Hc1 & Hthr1 & Hlp1 & _).
    rewrite Hsid in Hc1, Hthr1, Hlp1.
    unfold observe_all. simpl.
    destruct (bind_ok (handle_idle player now)
                (λ _, for_each pre (λ o, handle_idle o.1 o.2)) s tt Hr)
      as (-> & -> & _).
    destruct (thresholds_step (counter sid s) Hc) as [_ Hnext].
    destruct (IH (final (handle_idle player now s))) as (Hr' & Hc' & Hthr' & Hlp');
      try done.
    + by rewrite Hlp1, Hpos.
    + lia.
    + rewrite Hthr1, Hc1, Hnext, Hthr.
      by destruct (decide _); [rewrite bool_decide_eq_true_2
                              |rewrite bool_decide_eq_false_2].
    + unfold observe_all in *. repeat split; try done. lia.
Qed.

(** C4. Take a player whose threshold sequence has just started (idle
    count 0, threshold 5: a player not met before, or one who has just
    moved) and a run of [handle_idle] calls in which the rounded position
    stays the baseline. The call that brings the idle count to [k]
    finds the threshold at the element of 5, 10, 20, 40, 60, 60, ... that
    follows the warnings already sent, and sends an idle warning, for
    [k] minutes, exactly when [k] equals that threshold, that is when [k]
    is 5, 10, 20, 40 or 60. A call with a changed rounded position puts
    the idle count back to 0 and the threshold back to 5, so that the
    sequence starts again. *)
Theorem idle_warning_thresholds :
  (∀ sid pos s obs pre player now post,
     Forall (still sid pos) obs →
     default pos (last_positions s !! sid) = pos →
     counter sid s = 0 →
     threshold sid s = 5 →
     obs = (pre ++ (player, now) :: post)%list →
     let before := final (observe_all pre s) in
     let k := Z.of_nat (length pre) + 1 in
     counter sid before + 1 = k ∧
     threshold sid before = thresholds (warned (k - 1)) ∧
     (k = threshold sid before ↔ k ∈ [5; 10; 20; 40; 60]) ∧
     effects (handle_idle player now before) =
       (if decide (k ∈ [5; 10; 20; 40; 60])
        then [SendToDiscord (idle_message (name player) (format_minutes (k * 60)))]
        else [])) ∧
  (∀ player now s,
     position player ≠ baseline player s →
     let after := final (handle_idle player now s) in
     counter (steam_id player) after = 0 ∧
     threshold (steam_id player) after = 5 ∧
     last_positions after !! steam_id player = Some (position player)).
Proof.
  split; [|apply handle_idle_moved].
  intros sid pos s obs pre player now post Hobs Hbase Hc Hthr ->. cbv zeta.
  apply Forall_app in Hobs as [Hpre Hrest].
  apply Forall_cons in Hrest as [[Hsid Hpos] _]. simpl in Hsid, Hpos.
  destruct (observe_all_still sid pos pre s) as (_ & Hc' & Hthr' & Hlp');
    try done; [lia | by rewrite Hc, Hthr |].
  set (before := final (observe_all pre s)) in *.
  rewrite Hc in Hc'.
  assert (0 ≤ counter sid before) as Hpos' by lia.
  destruct (thresholds_step (counter sid before) Hpos') as [Hiff _].
  rewrite <- Hthr' in Hiff.
  replace (Z.of_nat (length pre) + 1) with (counter sid before + 1) by lia.
  replace (counter sid before + 1 - 1) with (counter sid before) by lia.
  repeat split; try done; try apply Hiff.
  assert (position player = baseline player before) as Hstill
    by (unfold baseline; by rewrite Hsid, Hpos).
  destruct (handle_idle_still player now before Hstill) as (_ & _ & _ & _ & ->).
  rewrite Hsid. destruct (decide (counter sid before + 1 ∈ _)) as [Hin|Hout].
  - apply Hiff in Hin. rewrite bool_decide_eq_true_2 by done. by rewrite <- Hin.
  - rewrite bool_decide_eq_false_2; [done|]. intros Heq. by apply Hout, Hiff.
Qed.

Lemma idle_warning_thresholds_witness :
  let ann := Member 7 "ann" 0 0 true in
  let pre := [(ann, 0%Q); (ann, 60%Q); (ann, 120%Q); (ann, 180%Q)] in
  effects (handle_idle ann 240 (final (observe_all pre (initial_state None)))) =
  [SendToDiscord (idle_message "ann" "5m")].
Proof.
  intros ann pre.
  apply (proj1 idle_warning_thresholds 7 (0, 0) (initial_state None)
           (pre ++ [(ann, 240%Q)])%list pre ann 240%Q []).
  - repeat constructor.
  - reflexivity.
  - reflexivity.
  - reflexivity.
  - reflexivity.
Defined.

(** * Further properties of the handlers *)

(** ** [update_presence] *)

(** X1. Whatever the online flag, and also when the accounting raises,
    [update_presence] records the clock reading of the call in
    [last_update] for the observed player and for nobody else. *)
Theorem update_presence_stamps player now s :
  last_update (final (update_presence player now s)) =
  <[steam_id player := now]> (last_update s).
Proof. by rewrite update_presence_unfold. Qed.

(** X2. The time of the first sighting is written once: a call for a
    player without an entry stores the truncated clock reading under
    ["first"], a call for a player with an entry leaves ["first"] as it
    is. *)
Theorem update_presence_first player now s :
  stat (final (update_presence player now s)) (steam_id player) "first" =
  match player_seen s !! steam_id player with
  | Some entry => field "first" entry
  | None => Some (VInt (int_float now))
  end.
Proof.
  rewrite update_presence_unfold. unfold stat. simpl.
  rewrite lookup_insert_eq. simpl.
  assert (∀ entry,
    field "first" (if is_online player
                   then account entry
                          (int_float (now - default now (last_update s !! steam_id player)))
                          (bool_decide (1 ≤ counter (steam_id player) s)) now
                   else (None, entry)).2 = field "first" entry) as H.
  { intros entry. destruct (is_online player); [|done].
    by apply field_account. }
  rewrite H. by destruct (player_seen s !! steam_id player).
Qed.

(** X3. An observation of an offline player never raises and changes
    nothing in the statistics of a player who has an entry: only the
    online flag and the clock reading are recorded. *)
Theorem update_presence_offline player now s entry :
  is_online player = false →
  player_seen s !! steam_id player = Some entry →
  let o := update_presence player now s in
  result o = inr tt ∧
  player_seen (final o) = player_seen s ∧
  player_online (final o) = <[steam_id player := false]> (player_online s).
Proof.
  intros Hoff Hentry. rewrite update_presence_unfold. cbv zeta.
  rewrite Hoff, Hentry. simpl. by rewrite insert_id.
Qed.

Lemma update_presence_offline_witness :
  let ann := Member 7 "ann" 0 0 false in
  let s := State ∅ ∅ ∅ {[7 := true]} {[7 := stats "ann" 0 60 60 0]} ∅ {[7 := 60%Q]} None in
  let o := update_presence ann 500 s in
  result o = inr tt ∧
  player_seen (final o) = player_seen s ∧
  player_online (final o) = <[7 := false]> (player_online s).
Proof.
  intros ann s.
  apply (update_presence_offline ann 500 s (stats "ann" 0 60 60 0));
    reflexivity.
Defined.

(** X4. An observation of an online player with a well-formed entry
    adds the whole seconds elapsed since the player's previous
    observation to ["total"], adds the same seconds to ["idle"] exactly
    when the idle count is at least 1, sets ["last"] to the truncated
    clock reading and keeps the name and the first sighting. *)
Theorem update_presence_online player now s who first last total idle before :
  is_online player = true →
  player_seen s !! steam_id player = Some (stats who first last total idle) →
  last_update s !! steam_id player = Some before →
  let o := update_presence player now s in
  let delta := int_float (now - before) in
  result o = inr tt ∧
  player_seen (final o) !! steam_id player =
    Some (stats who first (int_float now) (total + delta)
            (if decide (1 ≤ counter (steam_id player) s)
             then idle + delta else idle)).
Proof.
  intros Hon Hentry Hbefore. rewrite update_presence_unfold. cbv zeta.
  rewrite Hon, Hentry, Hbefore. simpl. rewrite account_stats. simpl.
  rewrite lookup_insert_eq. split; [done|].
  by destruct (decide (1 ≤ counter (steam_id player) s));
    [rewrite bool_decide_eq_true_2 | rewrite bool_decide_eq_false_2].
Qed.

Lemma update_presence_online_witness :
  let ann := Member 7 "ann" 0 0 true in
  let s := State ∅ {[7 := 3]} ∅ {[7 := true]} {[7 := stats "ann" 0 60 60 0]} ∅
             {[7 := 60%Q]} None in
  let o := update_presence ann (241 # 2) s in
  result o = inr tt ∧
  player_seen (final o) !! 7 = Some (stats "ann" 0 120 120 60).
Proof.
  intros ann s.
  apply (update_presence_online ann (241 # 2) s "ann" 0 60 60 0 60%Q);
    reflexivity.
Defined.

(** X5. The first observation of a player since the process started
    (no clock reading in [last_update], as after a restart with loaded
    statistics) adds no seconds: ["total"] and ["idle"] of a well-formed
    entry stay as loaded. *)
Theorem update_presence_after_restart player now s who first last total idle :
  player_seen s !! steam_id player = Some (stats who first last total idle) →
  last_update s !! steam_id player = None →
  let o := update_presence player now s in
  result o = inr tt ∧
  stat (final o) (steam_id player) "total" = Some (VInt total) ∧
  stat (final o) (steam_id player) "idle" = Some (VInt idle).
Proof.
  intros Hentry Hbefore. rewrite update_presence_unfold. cbv zeta.
  rewrite Hentry, Hbefore. simpl.
  assert (int_float (now - now) = 0) as ->.
  { unfold int_float, Qminus, Qplus, Qopp. simpl.
    replace (Qnum now * QDen now + - Qnum now * QDen now) with 0 by lia.
    done. }
  unfold stat. simpl. rewrite lookup_insert_eq.
  destruct (is_online player); [|done].
  rewrite account_stats. simpl. rewrite !Z.add_0_r.
  by destruct (bool_decide _).
Qed.

Lemma update_presence_after_restart_witness :
  let ann := Member 7 "ann" 0 0 true in
  let s := State ∅ ∅ ∅ ∅ {[7 := stats "ann" 0 60 60 20]} ∅ ∅ None in
  let o := update_presence ann 5000 s in
  result o = inr tt ∧
  stat (final o) 7 "total" = Some (VInt 60) ∧
  stat (final o) 7 "idle" = Some (VInt 20).
Proof.
  intros ann s.
  apply (update_presence_after_restart ann 5000 s "ann" 0 60 60 20);
    reflexivity.
Defined.

(** X6. [update_presence] never touches the idle state, the trails or
    the file, and in the statistics, the online flags and the clock
    readings it touches only the entries of the observed player. *)
Theorem update_presence_frame player now s :
  let s' := final (update_presence player now s) in
  last_positions s' = last_positions s ∧
  idle_timers s' = idle_timers s ∧
  idle_notify_intervals s' = idle_notify_intervals s ∧
  movement_trail s' = movement_trail s ∧
  save_file s' = save_file s ∧
  ∀ sid, sid ≠ steam_id player →
    player_seen s' !! sid = player_seen s !! sid ∧
    player_online s' !! sid = player_online s !! sid ∧
    last_update s' !! sid = last_update s !! sid.
Proof.
  rewrite update_presence_unfold. cbv zeta. simpl. repeat split; try done.
  - by rewrite lookup_insert_ne.
  - destruct (_.1); [done | by rewrite lookup_insert_ne].
  - by rewrite lookup_insert_ne.
Qed.

Lemma update_presence_frame_witness :
  let ann := Member 7 "ann" 0 0 true in
  let s := State ∅ ∅ ∅ {[8 := true]} {[8 := stats "bob" 0 60 60 20]} ∅ ∅ None in
  player_seen (final (update_presence ann 60 s)) !! 8 = player_seen s !! 8.
Proof.
  intros ann s.
  apply (update_presence_frame ann 60 s). discriminate.
Defined.

(** X7. When the entry of an online player cannot give its ["total"]
    (the key is missing, or the entry is not a dict), the exception
    escapes after the login message has been scheduled and the clock
    reading recorded: the statistics and the online flag stay as they
    were, so the same login message is scheduled again by the next
    call. *)
Theorem update_presence_broken_entry player now s entry e :
  is_online player = true →
  player_seen s !! steam_id player = Some entry →
  getitem entry "total" = inl e →
  let o := update_presence player now s in
  result o = inl e ∧
  effects o = presence_effects player s ∧
  player_seen (final o) = player_seen s ∧
  player_online (final o) = player_online s ∧
  presence_effects player (final o) = presence_effects player s.
Proof.
  intros Hon Hentry Hget. rewrite update_presence_unfold. cbv zeta.
  rewrite Hon, Hentry. simpl. unfold account, stat_add. rewrite Hget. simpl.
  by rewrite insert_id.
Qed.

Lemma update_presence_broken_entry_witness :
  let ann := Member 7 "ann" 0 0 true in
  let s := State ∅ ∅ ∅ ∅ {[7 := VDict [("name", VStr "ann")]]} ∅ ∅ None in
  let o := update_presence ann 60 s in
  result o = inl (KeyError "total") ∧
  effects o = [SendToDiscord (login_message "ann")] ∧
  player_seen (final o) = player_seen s ∧
  player_online (final o) = player_online s ∧
  presence_effects ann (final o) = [SendToDiscord (login_message "ann")].
Proof.
  intros ann s.
  apply (update_presence_broken_entry ann 60 s
           (VDict [("name", VStr "ann")]) (KeyError "total"));
    reflexivity.
Defined.

(** ** [handle_idle] *)




(** X9. When the rounded position differs from the baseline, a
    "no longer AFK" message is sent exactly when the idle count had
    reached 5; it reports the count as if it were seconds. With a smaller
    count nothing is sent. Either way the new position becomes the
    baseline. *)
Theorem handle_idle_on_move player now s :
  position player ≠ baseline player s →
  let o := handle_idle player now s in
  let c := counter (steam_id player) s in
  effects o =
    (if decide (5 ≤ c)
     then [SendToDiscord (active_message (name player) (format_minutes c))]
     else []) ∧
  baseline player (final o) = position player.
Proof.
  intros Hmoved. rewrite handle_idle_unfold. cbv zeta.
  rewrite (bool_decide_eq_true_2 _ Hmoved). simpl. split.
  - by destruct (decide (5 ≤ counter (steam_id player) s));
      [rewrite bool_decide_eq_true_2 | rewrite bool_decide_eq_false_2].
  - unfold baseline. simpl. by rewrite lookup_insert_eq.
Qed.

Lemma handle_idle_on_move_witness :
  let s := State {[7 := (0, 3)]} {[7 := 4]} {[7 := 5]} ∅ ∅ ∅ ∅ None in
  let o := handle_idle (Member 7 "ann" 5 3 true) 60 s in
  effects o = [] ∧ baseline (Member 7 "ann" 5 3 true) (final o) = (5, 3).
Proof.
  intros s.
  apply (handle_idle_on_move (Member 7 "ann" 5 3 true) 60 s). discriminate.
Defined.

(** ** Sequences of calls *)


Lemma update_presence_shaped player now s :
  shaped s →
  result (update_presence player now s) = inr tt ∧
  shaped (final (update_presence player now s)).
Proof.
  intros Hok. rewrite update_presence_unfold. cbv zeta.
  set (sid := steam_id player).
  assert (∃ who first last total idle,
            default (new_stats (name player) now) (player_seen s !! sid) =
              stats who first last total idle)
    as (who & first & last & total & idle & ->).
  { destruct (player_seen s !! sid) as [entry|] eqn:Hentry; simpl.
    - by apply (Hok sid).
    - by exists (name player), (int_float now), (int_float now), 0, 0. }
  set (acc := if is_online player then _ else _).
  assert (∃ last' total' idle', acc = (None, stats who first last' total' idle'))
    as (last' & total' & idle' & ->).
  { subst acc. destruct (is_online player).
    - rewrite account_stats. by do 3 eexists.
    - by do 3 eexists. }
  simpl. split; [done|]. intros sid' entry. simpl.
  destruct (decide (sid = sid')) as [<-|Hne].
  - rewrite lookup_insert_eq. intros [= <-]. by do 5 eexists.
  - rewrite lookup_insert_ne by done. apply Hok.
Qed.


Lemma handle_idle_appends_to_trail_aux player now s :
  movement_trail (final (handle_idle player now s)) =
  <[steam_id player :=
      (trail (steam_id player) s ++ [(now, position player)])%list]>
    (movement_trail s).
Proof. by rewrite handle_idle_unfold. Qed.

Lemma update_presence_keeps_idle_state player now s :
  let s' := final (update_presence player now s) in
  idle_timers s' = idle_timers s ∧
  idle_notify_intervals s' = idle_notify_intervals s ∧
  movement_trail s' = movement_trail s.
Proof. by rewrite update_presence_unfold. Qed.



Lemma samples_run cs sid : ∀ s,
  shaped s →
  trail sid (final (for_each cs run_call s)) = (trail sid s ++ samples sid cs)%list.
Proof.
  induction cs as [|c cs IH]; intros s Hshaped; simpl.
  - by rewrite app_nil_r.
  - assert (result (run_call c s) = inr tt ∧ shaped (final (run_call c s)) ∧
            trail sid (final (run_call c s)) =
              (trail sid s ++ samples sid [c])%list) as (Hr & Hshaped' & Htrail).
    { destruct c as [player now|player now]; simpl.
      - destruct (update_presence_shaped player now s Hshaped) as [Hr Hshaped'].
        repeat split; try done. unfold trail.
        destruct (update_presence_keeps_idle_state player now s) as (_ & _ & ->).
        by rewrite app_nil_r.
      - destruct (handle_idle_frame player now s) as (Hseen & _).
        repeat split; [apply handle_idle_result | unfold shaped; by rewrite Hseen |].
        unfold trail. rewrite handle_idle_appends_to_trail_aux.
        destruct (decide (steam_id player = sid)) as [->|Hne].
        + by rewrite lookup_insert_eq.
        + rewrite lookup_insert_ne by done. by rewrite app_nil_r. }
    destruct (bind_ok (run_call c) (λ _, for_each cs run_call) s tt Hr)
      as (_ & -> & _).
    rewrite IH, Htrail by done. rewrite <- app_assoc. f_equal.
    destruct c as [player now|player now]; simpl; [done|].
    by destruct (decide (steam_id player = sid)).
Qed.

(** X11. In a process that starts without statistics, the trail of a
    player after any sequence of calls is the list of the samples given
    to [handle_idle] for that player, clock reading and rounded position,
    in the order of the calls: nothing is dropped, reordered or
    rewritten. *)
Theorem trail_is_all_samples cs file sid :
  trail sid (final (for_each cs run_call (initial_state file))) = samples sid cs.
Proof. by rewrite samples_run. Qed.

Lemma warned_step c :
  0 ≤ c →
  warned (c + 1) =
  Nat.add (warned c)
    (if decide (c + 1 ∈ [5; 10; 20; 40; 60]) then 1%nat else 0%nat).
Proof.
  intros Hc. destruct (decide _) as [Hin|Hout];
    rewrite !elem_of_cons, elem_of_nil in *;
    unfold warned; rewrite !filter_cons, !filter_nil;
    repeat case_decide; simpl; lia.
Qed.

Lemma warnings_in_still_run sid pos obs : ∀ s,
  Forall (still sid pos) obs →
  default pos (last_positions s !! sid) = pos →
  0 ≤ counter sid s →
  threshold sid s = thresholds (warned (counter sid s)) →
  (warned (counter sid s) + length (effects (observe_all obs s)))%nat =
  warned (counter sid s + Z.of_nat (length obs)).
Proof.
  induction obs as [|[player now] obs IH]; intros s Hobs Hbase Hc Hthr.
  - simpl. by rewrite Z.add_0_r, Nat.add_0_r.
  - apply Forall_cons in Hobs as [[Hsid Hpos] Hobs]. simpl in Hsid, Hpos.
    assert (position player = baseline player s) as Hstill
      by (unfold baseline; by rewrite Hsid, Hpos).
    destruct (handle_idle_still player now s Hstill)
      as (Hr & Hc1 & Hthr1 & Hlp1 & Hout).
    rewrite Hsid in Hc1, Hthr1, Hlp1, Hout.
    unfold observe_all. simpl.
    destruct (bind_ok (handle_idle player now)
                (λ _, for_each obs (λ o, handle_idle o.1 o.2)) s tt Hr)
      as (_ & _ & ->).
    destruct (thresholds_step (counter sid s) Hc) as [Hiff Hnext].
    rewrite <- Hthr in Hiff, Hnext.
    specialize (IH (final (handle_idle player now s)) Hobs).
    unfold observe_all in IH. rewrite length_app.
    rewrite Hc1 in IH. rewrite Hthr1, Hlp1, Hpos in IH.
    replace (counter sid s + Z.of_nat (S (length obs)))
      with (counter sid s + 1 + Z.of_nat (length obs)) by lia.
    rewrite <- IH; try done; try lia.
    + rewrite warned_step by done. rewrite Hout.
      destruct (decide (counter sid s + 1 ∈ _)) as [Hin|Hnotin].
      * rewrite bool_decide_eq_true_2 by by apply Hiff. simpl. lia.
      * rewrite bool_decide_eq_false_2; [simpl; lia|].
        intros Heq. by apply Hnotin, Hiff.
    + rewrite Hnext.
      by destruct (decide _); [rewrite bool_decide_eq_true_2
                              |rewrite bool_decide_eq_false_2].
Qed.

(** X12. While the rounded position of a player stays the baseline,
    starting from idle count 0 and threshold 5, [n] calls of
    [handle_idle] send as many idle warnings as there are elements of 5,
    10, 20, 40, 60 not above [n]: never more than five, however long the
    player stays. *)
Theorem at_most_five_warnings sid pos s obs :
  Forall (still sid pos) obs →
  default pos (last_positions s !! sid) = pos →
  counter sid s = 0 →
  threshold sid s = 5 →
  length (effects (observe_all obs s)) = warned (Z.of_nat (length obs)) ∧
  (length (effects (observe_all obs s)) ≤ 5)%nat.
Proof.
  intros Hobs Hbase Hc Hthr.
  pose proof (warnings_in_still_run sid pos obs s Hobs Hbase) as H.
  rewrite Hc, Hthr in H. specialize (H (Z.le_refl 0) eq_refl).
  rewrite Z.add_0_l in H. change (warned 0) with 0%nat in H.
  rewrite Nat.add_0_l in H. rewrite H. split; [done|]. unfold warned.
  apply (length_filter (λ t, t ≤ Z.of_nat (length obs)) [5; 10; 20; 40; 60]).
Qed.

Lemma at_most_five_warnings_witness :
  let ann := Member 7 "ann" 0 0 true in
  let obs := replicate 70 (ann, 0%Q) in
  length (effects (observe_all obs (initial_state None))) = 5%nat.
Proof.
  intros ann obs.
  apply (at_most_five_warnings 7 (0, 0) (initial_state None) obs).
  - apply Forall_replicate. by split.
  - reflexivity.
  - reflexivity.
  - reflexivity.
Defined.

(** ** The polling loop *)

Lemma process_unfold p s :
  process p s =
  match update_presence (member p) (presence_clock p) s with
  | Outcome (inl e) s' out => Outcome (inl e) s' out
  | Outcome (inr _) s' out =>
      if is_online (member p)
      then Outcome (inr tt) (final (handle_idle (member p) (idle_clock p) s'))
             (out ++ effects (handle_idle (member p) (idle_clock p) s'))
      else Outcome (inr tt) s' (out ++ [])
  end.
Proof.
  unfold process, mbind, M_bind.
  destruct (update_presence _ _ s) as [[e|[]] s' out]; [done|].
  destruct (is_online (member p)); [|done].
  rewrite (handle_idle_unfold (member p) (idle_clock p) s'). done.
Qed.

Lemma process_sends p s : Forall (λ e, is_sleep e = false) (effects (process p s)).
Proof.
  rewrite process_unfold.
  pose proof (update_presence_unfold (member p) (presence_clock p) s) as Hup.
  destruct (update_presence _ _ s) as [r s' out]. cbv zeta in Hup.
  injection Hup as _ _ ->.
  assert (Forall (λ e, is_sleep e = false) (presence_effects (member p) s)) as Hp.
  { unfold presence_effects. repeat case_match; by repeat constructor. }
  destruct r as [e|[]]; simpl; [done|].
  destruct (is_online (member p)); simpl.
  - apply Forall_app. split; [done|]. rewrite handle_idle_unfold. simpl.
    repeat case_match; by repeat constructor.
  - by rewrite app_nil_r.
Qed.

Lemma for_each_process_sends members : ∀ s,
  Forall (λ e, is_sleep e = false) (effects (for_each members process s)).
Proof.
  induction members as [|p members IH]; intros s; simpl; [constructor|].
  unfold mbind, M_bind. pose proof (process_sends p s) as Hp.
  destruct (process p s) as [[e|[]] s' out]; simpl in *; [done|].
  specialize (IH s'). destruct (for_each members process s') as [r s'' out'].
  simpl in *. by apply Forall_app.
Qed.

Lemma polling_iteration_roster p ps s :
  polling_iteration (Returns (Some (p :: ps))) s =
  Outcome (inr tt) (final (for_each (p :: ps) process s))
    (effects (for_each (p :: ps) process s) ++ [Sleep 60]).
Proof.
  unfold polling_iteration.
  set (body := for_each (p :: ps) process). clearbody body. run_monad.
  destruct (body s) as [[e|[]] s' out]; simpl; by rewrite ?app_nil_r.
Qed.

Lemma polling_iteration_sleeps_once answer s :
  result (polling_iteration answer s) = inr tt ∧
  ∃ sends seconds,
    effects (polling_iteration answer s) = (sends ++ [Sleep seconds])%list ∧
    Forall (λ e, is_sleep e = false) sends ∧
    (seconds = 10 ∨ seconds = 60).
Proof.
  destruct answer as [e|[[|p members]|]].
  - split; [done|]. exists [], 60. by repeat split; [|right].
  - split; [done|]. exists [], 10. by repeat split; [|left].
  - rewrite polling_iteration_roster. split; [done|].
    eexists _, 60. split; [done|]. split; [|by right].
    apply for_each_process_sends.
  - split; [done|]. exists [], 10. by repeat split; [|left].
Qed.

(** X13. No exception leaves the polling loop, whatever the socket
    answers and whatever the state, and every turn of the loop sleeps
    exactly once, 10 or 60 seconds, after its messages: over any number
    of turns there are as many sleeps as turns. *)
Theorem polling_loop_never_raises answers s :
  let o := rust_polling_loop answers s in
  result o = inr tt ∧
  length (filter (λ e, is_sleep e = true) (effects o)) = length answers ∧
  Forall (λ e, is_sleep e = true → e = Sleep 10 ∨ e = Sleep 60) (effects o).
Proof.
  cbv zeta. unfold rust_polling_loop. revert s.
  induction answers as [|answer answers IH]; intros s; simpl; [by repeat split|].
  destruct (polling_iteration_sleeps_once answer s)
    as (Hr & sends & seconds & Hout & Hsends & Hseconds).
  destruct (bind_ok (polling_iteration answer)
              (λ _, for_each answers polling_iteration) s tt Hr)
    as (-> & _ & ->).
  destruct (IH (final (polling_iteration answer s))) as (Hr' & Hlen & Hall).
  split; [done|]. rewrite Hout. split.
  - rewrite !filter_app, !length_app, Hlen.
    assert (filter (λ e, is_sleep e = true) sends = []) as ->.
    { clear Hout. induction Hsends as [|e sends He _ IHs]; [done|].
      rewrite filter_cons. rewrite decide_False by by rewrite He. done. }
    done.
  - apply Forall_app. split; [apply Forall_app; split|done].
    + eapply Forall_impl; [exact Hsends|]. intros e He Hs. by rewrite He in Hs.
    + constructor; [|constructor]. intros _. by destruct Hseconds as [->| ->]; [left|right].
Qed.

Lemma polling_loop_never_raises_witness :
  let s := State ∅ ∅ ∅ ∅ {[7 := VInt 0]} ∅ ∅ None in
  let roster := [Sample (Member 7 "ann" 0 0 true) 0 0] in
  let o := rust_polling_loop [Returns (Some roster); Returns None; Raises TypeError] s in
  result o = inr tt ∧
  length (filter (λ e, is_sleep e = true) (effects o)) = 3%nat.
Proof.
  intros s roster. split.
  - apply (polling_loop_never_raises
             [Returns (Some roster); Returns None; Raises TypeError] s).
  - apply (polling_loop_never_raises
             [Returns (Some roster); Returns None; Raises TypeError] s).
Defined.

(** X14. A member reported offline is not passed to [handle_idle]:
    processing it leaves every baseline, idle count, threshold and trail
    as it was, the member's own included, so that an idle count survives
    a logout. *)
Theorem offline_member_keeps_idle_state p s :
  is_online (member p) = false →
  let s' := final (process p s) in
  last_positions s' = last_positions s ∧
  idle_timers s' = idle_timers s ∧
  idle_notify_intervals s' = idle_notify_intervals s ∧
  movement_trail s' = movement_trail s.
Proof.
  intros Hoff. cbv zeta. rewrite process_unfold, Hoff.
  pose proof (update_presence_unfold (member p) (presence_clock p) s) as Hup.
  destruct (update_presence _ _ s) as [r s' out]. cbv zeta in Hup.
  injection Hup as _ -> _. by destruct r as [e|[]].
Qed.

Lemma offline_member_keeps_idle_state_witness :
  let s := State {[7 := (0, 3)]} {[7 := 12]} {[7 := 20]} {[7 := true]} ∅ ∅ ∅ None in
  idle_timers (final (process (Sample (Member 7 "ann" 9 9 false) 60 60) s)) =
  {[7 := 12]}.
Proof.
  intros s.
  apply (offline_member_keeps_idle_state (Sample (Member 7 "ann" 9 9 false) 60 60) s).
  reflexivity.
Defined.

Lemma for_each_stops {A} (body : A → M unit) pre a post s e :
  result (for_each pre body s) = inr tt →
  result (body a (final (for_each pre body s))) = inl e →
  for_each (pre ++ a :: post)%list body s = for_each (pre ++ [a])%list body s ∧
  result (for_each (pre ++ [a])%list body s) = inl e.
Proof.
  revert s. induction pre as [|b pre IH]; intros s Hpre Ha; simpl in *.
  - unfold mbind, M_bind. by destruct (body a s) as [[e'|[]] s' out'].
  - unfold mbind, M_bind in *.
    destruct (body b s) as [[e'|[]] s' out']; simpl in *; [done|].
    assert (result (for_each pre body s') = inr tt) as Hpre'
      by (by destruct (for_each pre body s')).
    assert (final (for_each pre body s') =
            final (let (r, s'', out'0) := for_each pre body s' in
                   Outcome r s'' (out' ++ out'0))) as Hfinal
      by (by destruct (for_each pre body s')).
    rewrite <- Hfinal in Ha.
    destruct (IH s' Hpre' Ha) as [-> Hr]. split; [done|].
    by destruct (for_each (pre ++ [a]) body s').
Qed.

(** X15. When processing a member raises, the turn ends there: the
    members that follow in the roster are not processed in this turn, and
    the turn sleeps 60 seconds as usual. What the roster holds after the
    raising member makes no difference to the state or to the effects. *)
Theorem raising_member_ends_turn pre p post s e :
  result (for_each pre process s) = inr tt →
  result (process p (final (for_each pre process s))) = inl e →
  polling_iteration (Returns (Some (pre ++ p :: post)%list)) s =
  polling_iteration (Returns (Some (pre ++ [p])%list)) s.
Proof.
  intros Hpre Hp.
  destruct (for_each_stops process pre p post s e Hpre Hp) as [Heq _].
  destruct pre as [|q pre]; simpl app in *;
    by rewrite !polling_iteration_roster, Heq.
Qed.

Lemma raising_member_ends_turn_witness :
  let s := State ∅ ∅ ∅ ∅ {[7 := VInt 0]} ∅ ∅ None in
  let ann := Sample (Member 7 "ann" 0 0 true) 60 60 in
  let bob := Sample (Member 8 "bob" 0 0 true) 60 60 in
  polling_iteration (Returns (Some [ann; bob])) s =
  polling_iteration (Returns (Some [ann])) s.
Proof.
  intros s ann bob.
  apply (raising_member_ends_turn [] ann [bob] s TypeError); reflexivity.
Defined.

(** ** Saving and loading *)

Lemma str_inj k k' : str k = str k' → k = k'.
Proof.
  intros H. apply (f_equal int_str) in H. rewrite !int_str_str in H.
  by injection H.
Qed.

(** X16. The document written by a save has exactly one member per
    player, under the decimal text of the Steam id, and no two players
    share a key: a value is stored under [str k] exactly when it is the
    entry of player [k]. *)
Theorem saved_document_keys (seen : gmap Z value) :
  NoDup (str_keys seen).*1 ∧
  length (str_keys seen) = size seen ∧
  ∀ k v, (str k, v) ∈ str_keys seen ↔ seen !! k = Some v.
Proof.
  unfold str_keys. split; [|split].
  - assert (∀ l : list (Z * value),
              ((λ kv, (str kv.1, kv.2)) <$> l).*1 = str <$> l.*1) as ->.
    { intros l. induction l as [|[k v] l IH]; [done|]. csimpl. by f_equal. }
    apply NoDup_fmap_2; [intros k k'; apply str_inj|].
    apply NoDup_fst_map_to_list.
  - by rewrite length_fmap, length_map_to_list.
  - intros k v. rewrite list_elem_of_fmap. split.
    + intros [[k' v'] [[= Hk ->] Hin]]. simpl in Hk.
      apply str_inj in Hk as ->. by apply elem_of_map_to_list.
    + intros Hkv. exists (k, v). split; [done|]. by apply elem_of_map_to_list.
Qed.

(** X17. When the file holds valid JSON that is not an object (a list,
    a string, a number, [null]), [load_player_data] lets the
    [AttributeError] of [.items()] escape and leaves the state, the
    statistics included, as it was. *)
Theorem load_rejects_non_object s doc :
  save_file s = Some (JSON doc) →
  (∀ its, doc ≠ VDict its) →
  load_player_data s = Outcome (inl AttributeError) s [].
Proof.
  intros Hfile Hdoc. unfold load_player_data. run_monad. rewrite Hfile.
  destruct doc; simpl; try done. by destruct (Hdoc d).
Qed.

Lemma load_rejects_non_object_witness :
  load_player_data (initial_state (Some (JSON (VList [])))) =
  Outcome (inl AttributeError) (initial_state (Some (JSON (VList [])))) [].
Proof.
  apply (load_rejects_non_object (initial_state (Some (JSON (VList [])))) (VList []));
    done.
Defined.







(** * The rest of the module *)

(** ** [world_to_image] *)





(** ** [on_ready] *)




(** ** Sorting *)

Section sorting.
Context {A : Type} (le : A → A → bool).

Lemma insert_sorted_perm a l : insert_sorted le a l ≡ₚ a :: l.
Proof.
  induction l as [|b l IH]; simpl; [done|].
  destruct (le a b); [done|]. rewrite IH. apply Permutation_swap.
Qed.

Lemma sorted_perm l : sorted le l ≡ₚ l.
Proof.
  induction l as [|a l IH]; simpl; [done|].
  by rewrite insert_sorted_perm, IH.
Qed.

Lemma insert_sorted_Sorted a l :
  (∀ b c, le b c = false → le c b = true) →
  Sorted (λ b c, le b c = true) l →
  Sorted (λ b c, le b c = true) (insert_sorted le a l).
Proof.
  intros Htotal Hl. induction Hl as [|b l Hl IH Hb]; simpl.
  - by repeat constructor.
  - destruct (le a b) eqn:Hab.
    + constructor; [by constructor|by constructor].
    + constructor; [done|].
      destruct Hb as [|c l Hbc]; simpl.
      * constructor. by apply Htotal.
      * destruct (le a c); constructor; [by apply Htotal|done].
Qed.

Lemma sorted_Sorted l :
  (∀ b c, le b c = false → le c b = true) →
  Sorted (λ b c, le b c = true) (sorted le l).
Proof.
  intros Htotal. induction l as [|a l IH]; simpl; [constructor|].
  by apply insert_sorted_Sorted.
Qed.


End sorting.

(** ** The [players] command *)

Lemma names_of_strings values names :
  Forall2 (λ d n, getitem d "name" = inr (VStr n)) values names →
  names_of values = inr (VStr <$> names) ∧ mapM as_str (VStr <$> names) = Some names.
Proof.
  intros Hnames. split.
  - induction Hnames as [|d n values names Hd _ IH]; [done|].
    simpl. by rewrite Hd, IH.
  - apply mapM_Some. clear. induction names as [|n names IH]; csimpl;
      by constructor.
Qed.

(** X22. When every entry has a string under ["name"] and there is at
    least one entry, the [players] command raises nothing and replies
    with the header line followed by the names joined by ", ": every
    name once per entry that carries it, in ascending order. *)
Theorem players_lists_sorted_names values names :
  Forall2 (λ d n, getitem d "name" = inr (VStr n)) values names →
  names ≠ [] →
  ∃ listed,
    players values =
      inr ("🧍 Tracked players:" ++ newline ++ join ", " listed) ∧
    listed ≡ₚ names ∧
    Sorted (λ a b, String.leb a b = true) listed.
Proof.
  intros Hnames Hne. destruct (names_of_strings values names Hnames) as [H1 H2].
  exists (sorted String.leb names). split; [|split].
  - unfold players. rewrite H1. destruct names as [|n names]; [done|].
    change (VStr <$> n :: names) with (VStr n :: (VStr <$> names)) in *.
    by rewrite H2.
  - apply sorted_perm.
  - apply sorted_Sorted. intros b c Hbc.
    destruct (String.leb_total b c) as [H|H]; [congruence|done].
Qed.

Lemma players_lists_sorted_names_witness :
  ∃ listed,
    players [stats "bob" 0 0 0 0; stats "ann" 0 0 0 0] =
      inr ("🧍 Tracked players:" ++ newline ++ join ", " listed) ∧
    listed ≡ₚ ["bob"; "ann"] ∧
    Sorted (λ a b, String.leb a b = true) listed.
Proof.
  apply (players_lists_sorted_names
           [stats "bob" 0 0 0 0; stats "ann" 0 0 0 0] ["bob"; "ann"]).
  - by repeat constructor.
  - discriminate.
Defined.

(** ** The ranking of [top_active] *)

#[local] Instance exn_eq_dec : EqDecision exn.
Proof. solve_decision. Defined.






Lemma keyed_fails pre d post e :
  Forall (λ d', ∃ k, active_time d' = inr k) pre →
  active_time d = inl e →
  keyed (pre ++ d :: post)%list = inl e.
Proof.
  intros Hpre Hd. induction Hpre as [|d' pre [k Hk] _ IH]; simpl.
  - by rewrite Hd.
  - by rewrite Hk, IH.
Qed.

(** X24. The ranking of [top_active] raises as soon as one entry
    cannot give its active time (a missing ["total"] or ["idle"], or a
    value that is not a number): the exception is the one of the first
    such entry in the order of the dict, and no ranking is produced,
    whatever the other entries hold. *)
Theorem top_active_ranking_fails pre d post e :
  Forall (λ d', ∃ k, active_time d' = inr k) pre →
  active_time d = inl e →
  top_active_ranking (pre ++ d :: post)%list = inl e.
Proof.
  intros Hpre Hd. unfold top_active_ranking.
  by rewrite (keyed_fails pre d post e Hpre Hd).
Qed.

Lemma top_active_ranking_fails_witness :
  top_active_ranking
    [stats "ann" 0 0 100 40; VDict [("name", VStr "bob"); ("total", VInt 5)];
     VInt 3] = inl (KeyError "idle").
Proof.
  apply (top_active_ranking_fails [stats "ann" 0 0 100 40]
           (VDict [("name", VStr "bob"); ("total", VInt 5)]) [VInt 3]
           (KeyError "idle")).
  - repeat constructor. by eexists.
  - reflexivity.
Defined.
